(** * Sail: the build orchestrator of [src/main.cpp]

    A shallow embedding of the helper functions and command handlers of
    [src/main.cpp] ([get_executable_path], [quote_path], [build_project],
    [handle_run_command], [handle_build_command], [handle_init_command]),
    together with models of the pieces of the C++ standard library they
    call: [std::string] searching and slicing over [size_t],
    [std::filesystem::path] in its generic format, a file tree, and
    [std::system] as an external oracle. *)

From Stdlib Require Import ZArith Ascii String List Lia Bool.
From stdpp Require Import base option list gmap strings.

Local Open Scope Z_scope.

(** ** The [std::string] fragment used by the program *)

Module StdString.

(** The double-quote and backslash characters, and a line feed. *)
Definition dquote : ascii := "034"%char.
Definition backslash : ascii := "092"%char.
Definition space : ascii := "032"%char.
Definition newline : ascii := "010"%char.
Definition slash : ascii := "047"%char.

Definition str (c : ascii) : string := String c EmptyString.

(** [size_t] is a 64-bit unsigned integer; arithmetic wraps. *)
Definition SIZE_MODULUS : Z := 2 ^ 64.
Definition npos : Z := SIZE_MODULUS - 1.
Definition wrap (z : Z) : Z := z mod SIZE_MODULUS.

Definition size (s : string) : Z := Z.of_nat (String.length s).

(** A string the machine can hold: every index is a [size_t] below
    [npos]. *)
Definition fits (s : string) : Prop := size s <= npos.

Fixpoint take (n : nat) (s : string) : string :=
  match n, s with
  | S n', String c s' => String c (take n' s')
  | _, _ => EmptyString
  end.

Fixpoint drop (n : nat) (s : string) : string :=
  match n, s with
  | S n', String _ s' => drop n' s'
  | _, _ => s
  end.

Fixpoint starts_with (pat s : string) : bool :=
  match pat, s with
  | EmptyString, _ => true
  | String p pat', String c s' => Ascii.eqb p c && starts_with pat' s'
  | String _ _, EmptyString => false
  end.

(** Offset of the first occurrence, counted from the start of [s]. *)
Fixpoint index_char (c : ascii) (s : string) : option nat :=
  match s with
  | EmptyString => None
  | String x s' =>
      if Ascii.eqb x c then Some O else option_map S (index_char c s')
  end.

Fixpoint index_str (pat s : string) : option nat :=
  if starts_with pat s then Some O
  else match s with
       | EmptyString => None
       | String _ s' => option_map S (index_str pat s')
       end.

(** [s.find(c, pos)] *)
Definition find_char (s : string) (c : ascii) (pos : Z) : Z :=
  if size s <? pos then npos
  else match index_char c (drop (Z.to_nat pos) s) with
       | Some i => pos + Z.of_nat i
       | None => npos
       end.

(** [s.find(pat, pos)] *)
Definition find_str (s pat : string) (pos : Z) : Z :=
  if size s <? pos then npos
  else match index_str pat (drop (Z.to_nat pos) s) with
       | Some i => pos + Z.of_nat i
       | None => npos
       end.

(** [s.substr(pos, count)]: [count] is clipped to the end of the string.
    For [pos > size] the C++ call throws [std::out_of_range]; the one call
    site of the program is shown to stay in range
    ([substr_call_in_range]). *)
Definition substr (s : string) (pos count : Z) : string :=
  take (Z.to_nat count) (drop (Z.to_nat pos) s).

(** [s.insert(pos, t)], for [pos <= size]. *)
Definition insert (s : string) (pos : Z) (t : string) : string :=
  take (Z.to_nat pos) s +:+ t +:+ drop (Z.to_nat pos) s.

(** [s.empty()] *)
Definition empty (s : string) : bool :=
  match s with EmptyString => true | String _ _ => false end.

(** Membership of a character, and occurrence of a pattern. *)
Fixpoint has_char (c : ascii) (s : string) : bool :=
  match s with
  | EmptyString => false
  | String x s' => Ascii.eqb x c || has_char c s'
  end.

Definition contains (pat s : string) : Prop :=
  exists a b, s = a +:+ pat +:+ b.

End StdString.

Import StdString.

(** ** Host platform: the two [#ifdef _WIN32] regions *)

Inductive platform := Posix | Windows.

(** [EXECUTABLE_EXTENSION], lines 21-25. *)
Definition EXECUTABLE_EXTENSION (host : platform) : string :=
  match host with
  | Windows => ".exe"
  | Posix => EmptyString
  end.

(** ** [quote_path], lines 33-46 *)

(** The [while] loop of the Unix branch.  Each round finds the next space at
    or after [pos], puts a backslash in front of it and moves [pos] past the
    pair. *)
Fixpoint quote_loop (fuel : nat) (result : string) (pos : Z) : string :=
  match fuel with
  | O => result
  | S fuel' =>
      let pos := find_char result space pos in
      if pos =? npos then result
      else quote_loop fuel' (insert result pos (str backslash)) (wrap (pos + 2))
  end.

Definition quote_path (host : platform) (path : string) : string :=
  match host with
  | Windows => str dquote +:+ path +:+ str dquote
  | Posix => quote_loop (S (String.length path)) path 0
  end.

(** What the Unix branch is meant to compute, character by character. *)
Fixpoint escape_spaces (s : string) : string :=
  match s with
  | EmptyString => EmptyString
  | String c s' =>
      if Ascii.eqb c space
      then String backslash (String space (escape_spaces s'))
      else String c (escape_spaces s')
  end.

(** ** [std::filesystem::path] in the generic format *)

Module Path.

(** A path is its optional root directory and its sequence of file names,
    outermost first: [/home/u/demo] is [mk true [home; u; demo]], the
    filesystem root is [mk true []], and a default-constructed path is
    [mk false []].  Repeated and trailing separators are not kept. *)
Record path := mk { has_root : bool; names : list string }.

#[global] Instance path_eq_dec : EqDecision path.
Proof. solve_decision. Defined.

Definition empty : path := mk false [].

(** [p.empty()] *)
Definition is_empty (p : path) : bool :=
  negb (has_root p) && bool_decide (names p = []).

(** [p.root_path()] *)
Definition root_path (p : path) : path := mk (has_root p) [].

(** [p.parent_path()]: the path without its last name; a path that has no
    name is its own parent. *)
Definition parent_path (p : path) : path :=
  mk (has_root p) (removelast (names p)).

(** [p / q]: an operand with a root replaces [p]. *)
Definition append (p q : path) : path :=
  if has_root q then q else mk (has_root p) (names p ++ names q).

(** Splitting a native string at the separators. *)
Fixpoint split_names (cur s : string) : list string :=
  match s with
  | EmptyString => [cur]
  | String c s' =>
      if Ascii.eqb c slash then cur :: split_names EmptyString s'
      else split_names (cur +:+ str c) s'
  end.

(** [path(s)] *)
Definition of_string (s : string) : path :=
  mk (starts_with (str slash) s) (List.filter (fun n => negb (StdString.empty n))
        (split_names EmptyString s)).

Fixpoint join_names (ns : list string) : string :=
  match ns with
  | [] => EmptyString
  | [n] => n
  | n :: ns' => n +:+ str slash +:+ join_names ns'
  end.

(** [p.string()] *)
Definition to_string (p : path) : string :=
  (if has_root p then str slash else EmptyString) +:+ join_names (names p).

(** [p.filename()] *)
Definition filename (p : path) : string := List.last (names p) EmptyString.

End Path.

Abbreviation path := Path.path.
Notation "p </> s" := (Path.append p (Path.of_string s))
  (at level 40, left associativity).

(** ** [get_executable_path], lines 27-30 *)

Definition get_executable_path (host : platform) (target_dir : path)
    (project_name : string) : path :=
  target_dir </> (project_name +:+ EXECUTABLE_EXTENSION host).

(** ** The file tree and the observable effects of a run *)

Inductive node := File (content : string) | Dir.

#[global] Instance node_eq_dec : EqDecision node.
Proof. solve_decision. Defined.

(** A location is the list of names leading to a node from the filesystem
    root. *)
Abbreviation location := (list string).

Record World := mkWorld {
  tree : gmap location node;
  (** the working directory of the process, an absolute location *)
  cwd : location;
  (** locations where creating or opening for writing is refused *)
  denied : gset location;
  (** command lines handed to [std::system] with the status each one
      returned, oldest first *)
  commands : list (string * Z);
  (** what [fmt::print] wrote, oldest first *)
  output : list string
}.

Definition with_tree (t : gmap location node) (w : World) : World :=
  mkWorld t (cwd w) (denied w) (commands w) (output w).

(** [fmt::print(msg)] *)
Definition print (msg : string) (w : World) : World :=
  mkWorld (tree w) (cwd w) (denied w) (commands w) (output w ++ [msg]).

(** [std::filesystem::current_path()] *)
Definition current_path (w : World) : path := Path.mk true (cwd w).

(** The location a path denotes: a path without a root is taken from the
    working directory.  Names are taken as they are written; the tree has no
    symbolic links and no entries for the dot names. *)
Definition resolve (w : World) (p : path) : location :=
  if Path.has_root p then Path.names p else cwd w ++ Path.names p.

(** [std::filesystem::exists(p)], for the calls that return: the status
    query is taken not to throw, so a run in which [exists] or
    [current_path] leaves the program by an exception is not a run of this
    model. *)
Definition fs_exists (w : World) (p : path) : bool :=
  bool_decide (is_Some (tree w !! resolve w p)).

(** [std::ifstream f(p)] followed by reading everything: [None] when the
    stream is not good after construction. *)
Definition read_file (w : World) (p : path) : option string :=
  match tree w !! resolve w p with
  | Some (File content) => Some content
  | _ => None
  end.

(** [std::ofstream f(p)]: whether the stream is good after construction.
    Opening needs the containing directory, must not hit a directory, and
    can be refused. *)
Definition can_open_for_write (w : World) (p : path) : bool :=
  let loc := resolve w p in
  negb (bool_decide (loc ∈ denied w))
  && bool_decide (tree w !! removelast loc = Some Dir)
  && negb (bool_decide (tree w !! loc = Some Dir)).

(** [f << content] on a freshly opened [std::ofstream]: the file holds
    exactly [content] afterwards. *)
Definition write_file (p : path) (content : string) (w : World) : World :=
  with_tree (<[resolve w p := File content]> (tree w)) w.

(** [std::filesystem::create_directories(p)]: makes every missing directory
    on the way; [None] when it throws [filesystem_error]. *)
Fixpoint mkdirs (no : gset location) (t : gmap location node)
    (done todo : location) : option (gmap location node) :=
  match todo with
  | [] => Some t
  | n :: todo' =>
      let d := done ++ [n] in
      match t !! d with
      | Some Dir => mkdirs no t d todo'
      | Some (File _) => None
      | None =>
          if bool_decide (d ∈ no) then None
          else mkdirs no (<[d := Dir]> t) d todo'
      end
  end.

Definition create_directories (p : path) (w : World) : option World :=
  match mkdirs (denied w) (tree w) [] (resolve w p) with
  | Some t => Some (with_tree t w)
  | None => None
  end.

(** ** Locating the project root, [build_project] lines 52-62 *)

Definition MANIFEST : string := "Sail.toml".

(** The [while] loop: [current_path] is tested against its own root path
    before the directory is inspected.  The loop returns the value
    [project_root] has when it ends, which is the empty path when no [break]
    happened. *)
Fixpoint locate_loop (fuel : nat) (w : World) (current_path : path) : path :=
  match fuel with
  | O => Path.empty
  | S fuel' =>
      if bool_decide (current_path <> Path.root_path current_path) then
        let sail_toml_path := current_path </> MANIFEST in
        if fs_exists w sail_toml_path then current_path
        else locate_loop fuel' w (Path.parent_path current_path)
      else Path.empty
  end.

Definition locate_root (w : World) (start_dir : path) : path :=
  locate_loop (S (length (Path.names start_dir))) w start_dir.

(** The ancestor chain of a directory: itself first, then its parent, and so
    on, the root path last. *)
Fixpoint prefixes (l : list string) : list (list string) :=
  match l with
  | [] => [[]]
  | x :: l' => [] :: map (cons x) (prefixes l')
  end.

Definition ancestor_chain (start_dir : path) : list path :=
  map (Path.mk (Path.has_root start_dir)) (rev (prefixes (Path.names start_dir))).

Definition has_manifest (w : World) (dir : path) : bool :=
  fs_exists w (dir </> MANIFEST).

(** The directories the loop looks into: the chain without its last
    element, the root path. *)
Definition inspected (start_dir : path) : list path :=
  removelast (ancestor_chain start_dir).

(** ** Reading the project name, [build_project] lines 69-93 *)

Module Manifest.

(** The text searched for on every line: [name = ] and an opening quote. *)
Definition MARKER : string := "name = " +:+ str dquote.

(** Successive [std::getline] calls on a stream holding [s]; [cur] is the
    part of the current line already read.  A final line needs no line
    feed, and no empty line is produced at the end of the stream. *)
Fixpoint getlines_from (cur s : string) : list string :=
  match s with
  | EmptyString =>
      match cur with EmptyString => [] | String _ _ => [cur] end
  | String c s' =>
      if Ascii.eqb c newline then cur :: getlines_from EmptyString s'
      else getlines_from (cur +:+ str c) s'
  end.

Definition getlines (content : string) : list string :=
  getlines_from EmptyString content.

(** The loop body, lines 80-87: [Some name] when the line assigns
    [project_name] and leaves the loop, [None] when the loop goes on. *)
Definition scan_line (line : string) : option string :=
  if negb (find_str line MARKER 0 =? npos) then
    let start := wrap (find_char line dquote 0 + 1) in
    let end_ := find_char line dquote start in
    if negb (start =? npos) && negb (end_ =? npos)
    then Some (substr line start (wrap (end_ - start)))
    else None
  else None.

(** The loop, lines 79-88, started with the current [project_name]. *)
Fixpoint scan_lines (lines : list string) (project_name : string) : string :=
  match lines with
  | [] => project_name
  | line :: rest =>
      match scan_line line with
      | Some name => name
      | None => scan_lines rest project_name
      end
  end.

Definition parse_project_name (content : string) : string :=
  scan_lines (getlines content) EmptyString.

Inductive read_error := NotFound | MissingField.
Inductive read_result := Name (project_name : string) | Failed (e : read_error).

(** Lines 70-93: open, scan, and reject an empty result. *)
Definition read_project_name (w : World) (manifest_path : path) : read_result :=
  match read_file w manifest_path with
  | None => Failed NotFound
  | Some content =>
      let project_name := parse_project_name content in
      if StdString.empty project_name then Failed MissingField
      else Name project_name
  end.

Fixpoint count_char (c : ascii) (s : string) : nat :=
  match s with
  | EmptyString => O
  | String x s' => (if Ascii.eqb x c then 1 else 0)%nat + count_char c s'
  end.

(** A line the loop body accepts: it holds the marker and a double quote
    after the first one. *)
Definition closed_marker_line (line : string) : Prop :=
  contains MARKER line /\ (2 <= count_char dquote line)%nat.

(** The line that carries the name [project_name] between quotes. *)
Definition name_line (project_name : string) : string :=
  MARKER +:+ project_name +:+ str dquote.

(** The manifest text written by [handle_new_command] (lines 260-265) and
    [handle_init_command] (lines 305-310). *)
Definition sail_toml_content (project_name : string) : string :=
  "[project]" +:+ str newline +:+
  name_line project_name +:+ str newline +:+
  "version = " +:+ str dquote +:+ "0.1.0" +:+ str dquote +:+ str newline +:+
  str newline +:+
  "[dependencies]" +:+ str newline.

End Manifest.

Import Manifest.

(** ** The generated build description, [build_project] lines 114-135 *)

Definition BUILD_DESCRIPTION : string := "CMakeLists.txt".

Definition cmake_content (project_name : string) : string :=
  let nl := str newline in
  let q := str dquote in
  "cmake_minimum_required(VERSION 3.21)" +:+ nl +:+
  nl +:+
  "project(" +:+ project_name +:+ " VERSION 0.1.0 LANGUAGES CXX)" +:+ nl +:+
  nl +:+
  "set(CMAKE_CXX_STANDARD 17)" +:+ nl +:+
  "set(CMAKE_CXX_STANDARD_REQUIRED ON)" +:+ nl +:+
  nl +:+
  "# Collect all source files" +:+ nl +:+
  "file(GLOB_RECURSE SOURCES src/*.cpp src/*.c)" +:+ nl +:+
  nl +:+
  "# Create executable" +:+ nl +:+
  "add_executable(" +:+ project_name +:+ " ${SOURCES})" +:+ nl +:+
  nl +:+
  "# Set output directory based on build type" +:+ nl +:+
  "set_target_properties(" +:+ project_name +:+ " PROPERTIES" +:+ nl +:+
  "    RUNTIME_OUTPUT_DIRECTORY_DEBUG " +:+ q +:+ "${CMAKE_SOURCE_DIR}/target/debug" +:+ q +:+ nl +:+
  "    RUNTIME_OUTPUT_DIRECTORY_RELEASE " +:+ q +:+ "${CMAKE_SOURCE_DIR}/target/release" +:+ q +:+ nl +:+
  ")" +:+ nl +:+
  nl +:+
  "# Ensure consistent output name across platforms" +:+ nl +:+
  "set_target_properties(" +:+ project_name +:+ " PROPERTIES OUTPUT_NAME " +:+ q +:+ project_name +:+ q +:+ ")" +:+ nl.

(** ** Statements with early exits *)

Definition EXIT_SUCCESS : Z := 0.
Definition EXIT_FAILURE : Z := 1.

(** How a statement of the [try] block of [build_project] ends: it falls
    through with a value, executes [return], or throws a
    [filesystem_error] about a path. *)
Inductive outcome (A : Type) :=
| Next (a : A)
| Return (result : Z * path)
| Throw (about : path).

Arguments Next {A} a.
Arguments Return {A} result.
Arguments Throw {A} about.

Definition Op (A : Type) : Type := World -> outcome A * World.

Definition bind {A B : Type} (m : Op A) (k : A -> Op B) : Op B :=
  fun w =>
    match m w with
    | (Next a, w') => k a w'
    | (Return r, w') => (Return r, w')
    | (Throw e, w') => (Throw e, w')
    end.

Notation "x <- m ;; k" := (bind m (fun x => k))
  (at level 100, m at next level, right associativity).
Notation "m ;;; k" := (bind m (fun _ => k))
  (at level 100, right associativity).

Definition return_ {A : Type} (result : Z * path) : Op A :=
  fun w => (Return result, w).

Definition say (msg : string) : Op unit := fun w => (Next tt, print msg w).

Definition mkdir_p (p : path) : Op unit :=
  fun w =>
    match create_directories p w with
    | Some w' => (Next tt, w')
    | None => (Throw p, w)
    end.

Section Orchestrator.

(** The host the program was compiled for. *)
Variable host : platform.

(** The external world behind [std::system]: a command line and the file
    tree it runs against give an exit status and the tree it leaves.  The
    child process inherits the working directory of the program, so one
    such function stands for the external programs as started from one
    directory; a run started from another directory has a function of its
    own, which may answer differently. *)
Variable toolchain : string -> gmap location node -> Z * gmap location node.

(** The text of [filesystem_error::what()]. *)
Variable what : path -> string.

(** [std::system(cmd)] *)
Definition std_system (cmd : string) (w : World) : Z * World :=
  let '(status, t) := toolchain cmd (tree w) in
  (status, mkWorld t (cwd w) (denied w) (commands w ++ [(cmd, status)]) (output w)).

Definition system_ (cmd : string) : Op Z :=
  fun w => let '(status, w') := std_system cmd w in (Next status, w').

(** Lines 111-143: the build description is written only when the path
    does not exist yet. *)
Definition ensure_build_description (project_root : path)
    (project_name : string) : Op unit :=
  fun w =>
    let cmake_path := project_root </> BUILD_DESCRIPTION in
    if negb (fs_exists w cmake_path) then
      let content := cmake_content project_name in
      if negb (can_open_for_write w cmake_path) then
        (Return (EXIT_FAILURE, Path.empty),
         print "Error: Failed to create CMakeLists.txt\n" w)
      else (Next tt, write_file cmake_path content w)
    else (Next tt, w).

Definition build_mode_of (release_mode : bool) : string :=
  if release_mode then "Release" else "Debug".

Definition target_subdir_of (release_mode : bool) : string :=
  if release_mode then "release" else "debug".

(** Lines 150-155 and 164-168. *)
Definition cmake_configure_cmd (build_mode : string)
    (project_root build_dir : path) : string :=
  "cmake -DCMAKE_BUILD_TYPE=" +:+ build_mode +:+
  " -S " +:+ quote_path host (Path.to_string project_root) +:+
  " -B " +:+ quote_path host (Path.to_string build_dir).

Definition cmake_build_cmd (build_mode : string) (build_dir : path) : string :=
  "cmake --build " +:+ quote_path host (Path.to_string build_dir) +:+
  " --config " +:+ build_mode.

(** Lines 145-177: the two external invocations and the result. *)
Definition configure_and_build (build_mode : string)
    (project_root target_dir : path) (project_name : string)
    : Op (Z * path) :=
  let build_dir := target_dir </> "build" in
  mkdir_p build_dir ;;;
  configure_result <- system_ (cmake_configure_cmd build_mode project_root build_dir) ;;
  if negb (configure_result =? 0) then
    say "Error: CMake configuration failed\n" ;;;
    return_ (EXIT_FAILURE, Path.empty)
  else
    build_result <- system_ (cmake_build_cmd build_mode build_dir) ;;
    if negb (build_result =? 0) then
      say "Error: Build failed\n" ;;;
      return_ (EXIT_FAILURE, Path.empty)
    else
      let executable_path := get_executable_path host target_dir project_name in
      return_ (EXIT_SUCCESS, executable_path).

(** The [try] block with its handlers, lines 107-185. *)
Definition try_block (body : Op (Z * path)) (w : World) : (Z * path) * World :=
  match body w with
  | (Next r, w') => (r, w')
  | (Return r, w') => (r, w')
  | (Throw e, w') =>
      ((EXIT_FAILURE, Path.empty), print ("Error: " +:+ what e +:+ "\n") w')
  end.

(** [build_project], lines 50-186. *)
Definition build_project (release_mode : bool) (w : World)
    : (Z * path) * World :=
  let project_root := locate_root w (current_path w) in
  if Path.is_empty project_root then
    ((EXIT_FAILURE, Path.empty),
     print "Error: Sail.toml not found in current directory or any parent directory. Run 'sail init' first.\n" w)
  else
    let sail_toml_path := project_root </> MANIFEST in
    match read_project_name w sail_toml_path with
    | Failed NotFound =>
        ((EXIT_FAILURE, Path.empty), print "Error: Failed to read Sail.toml\n" w)
    | Failed MissingField =>
        ((EXIT_FAILURE, Path.empty),
         print "Error: Could not find project name in Sail.toml\n" w)
    | Name project_name =>
        let src_dir := project_root </> "src" in
        if negb (fs_exists w src_dir) then
          ((EXIT_FAILURE, Path.empty), print "Error: src directory not found\n" w)
        else
          let build_mode := build_mode_of release_mode in
          let target_subdir := target_subdir_of release_mode in
          let target_dir := project_root </> "target" </> target_subdir in
          try_block
            (mkdir_p target_dir ;;;
             ensure_build_description project_root project_name ;;;
             configure_and_build build_mode project_root target_dir project_name)
            w
    end.

(** [handle_run_command], lines 189-213. *)
Definition handle_run_command (run_release : bool) (run_args : list string)
    (w : World) : Z * World :=
  let w := print ("Compiling " +:+ target_subdir_of run_release +:+ "...\n") w in
  let '((build_result, executable_path), w) := build_project run_release w in
  if negb (build_result =? EXIT_SUCCESS) then (build_result, w)
  else if negb (fs_exists w executable_path) then
    (EXIT_FAILURE,
     print ("Error: Executable not found at " +:+ Path.to_string executable_path +:+ "\n") w)
  else
    let w := print ("Running `" +:+ Path.filename executable_path +:+ "`\n") w in
    let run_command :=
      fold_left (fun cmd arg => cmd +:+ " " +:+ quote_path host arg) run_args
                (quote_path host (Path.to_string executable_path)) in
    std_system run_command w.

(** [handle_build_command], lines 216-238. *)
Definition handle_build_command (build_release : bool) (w : World)
    : Z * World :=
  let w := print "Configuring project...\n" w in
  let w := print "Compiling...\n" w in
  let '((build_result, executable_path), w) := build_project build_release w in
  if negb (build_result =? EXIT_SUCCESS) then (build_result, w)
  else
    let target_subdir := target_subdir_of build_release in
    let build_mode := build_mode_of build_release in
    if fs_exists w executable_path then
      (EXIT_SUCCESS,
       print ("Finished " +:+ target_subdir_of build_release +:+ " [" +:+ build_mode
              +:+ "] target(s) in target/" +:+ target_subdir +:+ "/\n") w)
    else
      (EXIT_SUCCESS, print "Warning: Executable not found at expected location\n" w).

End Orchestrator.

(** [handle_init_command], lines 301-328. *)
Definition handle_init_command (w : World) : Z * World :=
  let project_name := Path.filename (current_path w) in
  let content := sail_toml_content project_name in
  let sail_toml_path := current_path w </> MANIFEST in
  if fs_exists w sail_toml_path then
    (EXIT_FAILURE, print "Sail.toml already exists in current directory\n" w)
  else if negb (can_open_for_write w sail_toml_path) then
    (EXIT_FAILURE, print "Failed to create Sail.toml\n" w)
  else
    (EXIT_SUCCESS, print "Created Sail.toml\n" (write_file sail_toml_path content w)).

(** ** [handle_new_command], lines 241-298 *)

(** [std::filesystem::create_directory(p)]: one level only.  An existing
    directory is left as it is; [None] when the call throws
    [filesystem_error], as it does when the containing directory is
    missing. *)
Definition create_directory (p : path) (w : World) : option World :=
  let loc := resolve w p in
  match tree w !! loc with
  | Some Dir => Some w
  | Some (File _) => None
  | None =>
      if bool_decide (loc ∈ denied w) then None
      else if bool_decide (tree w !! removelast loc = Some Dir)
      then Some (with_tree (<[loc := Dir]> (tree w)) w)
      else None
  end.

(** The starter source, lines 276-282. *)
Definition main_cpp_content : string :=
  let nl := str newline in
  let q := str dquote in
  "#include <iostream>" +:+ nl +:+
  nl +:+
  "int main() {" +:+ nl +:+
  "    std::cout << " +:+ q +:+ "Hello, World!" +:+ q +:+ " << std::endl;" +:+ nl +:+
  "    return 0;" +:+ nl +:+
  "}" +:+ nl.

Section Scaffold.

(** The text of [filesystem_error::what()]. *)
Variable what : path -> string.

Definition handle_new_command (new_project_name : string) (w : World)
    : Z * World :=
  let project_dir := current_path w </> new_project_name in
  if fs_exists w project_dir then
    (EXIT_FAILURE,
     print ("Directory '" +:+ new_project_name +:+ "' already exists\n") w)
  else
    match create_directory project_dir w with
    | None =>
        (EXIT_FAILURE,
         print ("Failed to create project: " +:+ what project_dir +:+ "\n") w)
    | Some w1 =>
        let src_dir := project_dir </> "src" in
        match create_directory src_dir w1 with
        | None =>
            (EXIT_FAILURE,
             print ("Failed to create project: " +:+ what src_dir +:+ "\n") w1)
        | Some w2 =>
            let sail_toml_path := project_dir </> MANIFEST in
            let sail_toml_content := sail_toml_content new_project_name in
            if negb (can_open_for_write w2 sail_toml_path) then
              (EXIT_FAILURE, print "Failed to create Sail.toml\n" w2)
            else
              let w3 := write_file sail_toml_path sail_toml_content w2 in
              let main_cpp_path := src_dir </> "main.cpp" in
              if negb (can_open_for_write w3 main_cpp_path) then
                (EXIT_FAILURE, print "Failed to create src/main.cpp\n" w3)
              else
                let w4 := write_file main_cpp_path main_cpp_content w3 in
                (EXIT_SUCCESS,
                 print ("Created project '" +:+ new_project_name +:+ "'\n") w4)
        end
    end.

End Scaffold.

(** The process seen from another working directory. *)
Definition with_cwd (dir : location) (w : World) : World :=
  mkWorld (tree w) dir (denied w) (commands w) (output w).

(** ** Notions used to state what the commands leave alone *)

(** A toolchain that leaves the entry at [loc] alone. *)
Definition keeps (toolchain : string -> gmap location node -> Z * gmap location node)
    (loc : location) : Prop :=
  forall cmd t n, t !! loc = Some n -> snd (toolchain cmd t) !! loc = Some n.

(** An operation that behaves the same from every working directory. *)
Definition cwd_blind {A : Type} (m : Op A) : Prop :=
  forall dir w, m (with_cwd dir w) = let '(o, w') := m w in (o, with_cwd dir w').

(** The toolchain [toolchain], except that the tree left by the command
    [at_cmd] is passed through [g] before the program goes on. *)
Definition tamper (toolchain : string -> gmap location node -> Z * gmap location node)
    (at_cmd : string) (g : gmap location node -> gmap location node)
    (cmd : string) (t : gmap location node) : Z * gmap location node :=
  let '(status, t') := toolchain cmd t in
  (status, if String.eqb cmd at_cmd then g t' else t').

(** The messages [build_project] prints, lines 65, 73, 91, 98, 139, 159,
    172, 180 and 183.  Each ends in a backslash and the letter n, as the
    source writes them, not in a line feed. *)
Definition build_diagnostic (what : path -> string) (msg : string) : Prop :=
  In msg
    [ "Error: Sail.toml not found in current directory or any parent directory. Run 'sail init' first.\n";
      "Error: Failed to read Sail.toml\n";
      "Error: Could not find project name in Sail.toml\n";
      "Error: src directory not found\n";
      "Error: Failed to create CMakeLists.txt\n";
      "Error: CMake configuration failed\n";
      "Error: Build failed\n" ]
  \/ exists about, msg = "Error: " +:+ what about +:+ "\n".

(** A tree in which every entry but the root sits in a directory. *)
Definition well_formed (t : gmap location node) : Prop :=
  forall loc n, t !! loc = Some n -> loc <> [] -> t !! removelast loc = Some Dir.

(** ** Sample inputs *)

Module Samples.

(** A project [demo] under [/w], entered from its [src] directory. *)
Definition demo_tree (manifest : string) : gmap location node :=
  list_to_map
    [ ([], Dir);
      (["w"], Dir);
      (["w"; "demo"], Dir);
      (["w"; "demo"; "Sail.toml"], File manifest);
      (["w"; "demo"; "src"], Dir);
      (["w"; "demo"; "src"; "main.cpp"], File "int main() { return 0; }") ].

Definition demo_world (manifest : string) : World :=
  mkWorld (demo_tree manifest) ["w"; "demo"; "src"] ∅ [] [].

Definition demo_root : path := Path.mk true ["w"; "demo"].
Definition demo_manifest_path : path := demo_root </> MANIFEST.

(** The same project after a user rewrote the build description. *)
Definition edited_world : World :=
  with_tree (<[ ["w"; "demo"; "CMakeLists.txt"] := File "# edited by hand" ]>
               (demo_tree (sail_toml_content "demo")))
            (demo_world (sail_toml_content "demo")).

(** The only manifest sits in the filesystem root. *)
Definition root_manifest_world : World :=
  mkWorld (list_to_map
             [ ([], Dir);
               (["Sail.toml"], File (sail_toml_content "top"));
               (["src"], Dir);
               (["work"], Dir) ])
          ["work"] ∅ [] [].

(** An empty directory [/w/fresh] with no manifest above it. *)
Definition bare_world : World :=
  mkWorld (list_to_map [ ([], Dir); (["w"], Dir); (["w"; "fresh"], Dir) ])
          ["w"; "fresh"] ∅ [] [].

(** The same directory when a manifest may not be created in [app]. *)
Definition locked_world : World :=
  mkWorld (tree bare_world) (cwd bare_world)
          {[ ["w"; "fresh"; "app"; "Sail.toml"] ]} [] [].

(** A toolchain that answers with fixed statuses and writes nothing. *)
Definition scripted (configure_status build_status : Z) (cmd : string)
    (t : gmap location node) : Z * gmap location node :=
  (if starts_with "cmake --build" cmd then build_status else configure_status, t).

(** A toolchain that succeeds and leaves the given artifact behind. *)
Definition producing (artifact : location) (cmd : string)
    (t : gmap location node) : Z * gmap location node :=
  (0, if starts_with "cmake --build" cmd then <[artifact := File "ELF"]> t else t).

Definition plain_what (p : path) : string :=
  "filesystem error: cannot create directories [" +:+ Path.to_string p +:+ "]".

(** A manifest line with a quoted value in front of the name key. *)
Definition inline_table_line : string :=
  "package = { version = " +:+ str dquote +:+ "1.0" +:+ str dquote +:+ ", "
  +:+ MARKER +:+ "demo" +:+ str dquote +:+ " }".

(** A name line whose closing quote is missing. *)
Definition open_line : string := MARKER +:+ "demo".

End Samples.

Import Samples.

(** * Properties *)

#[local] Arguments String.append !s1 s2 : simpl nomatch.

(** Settles the clauses about one shape of the issued command list. *)
Ltac trace_case :=
  repeat split; unfold not; intros; simpl In in *;
  repeat match goal with
         | H : _ \/ _ |- _ => destruct H
         | H : False |- _ => destruct H
         | H : (_, _) = (_, _) |- _ => injection H as ? ?; subst
         end;
  try match goal with
      | H : EXIT_FAILURE = EXIT_SUCCESS |- _ => discriminate H
      end;
  try congruence; try tauto; auto.

(** Closes a case in which a failing return is assumed to be a success. *)
Ltac not_a_success H :=
  solve [exfalso; unfold EXIT_FAILURE, EXIT_SUCCESS in H; discriminate H].

(** Names one of the fixed messages of [build_project]. *)
Ltac fixed_diagnostic := left; cbn [In]; tauto.

(** ** Facts about the string fragment *)

Module StdStringFacts.

Lemma sapp_nil_r (a : string) : a +:+ EmptyString = a.
Proof. induction a as [|c a IH]; simpl; [reflexivity | now f_equal]. Qed.

Lemma sapp_assoc (a b c : string) : (a +:+ b) +:+ c = a +:+ (b +:+ c).
Proof. induction a as [|x a IH]; simpl; [reflexivity | now f_equal]. Qed.

Lemma slength_app (a b : string) :
  String.length (a +:+ b) = (String.length a + String.length b)%nat.
Proof. induction a as [|x a IH]; simpl; [reflexivity | now f_equal]. Qed.

Lemma size_app (a b : string) : size (a +:+ b) = size a + size b.
Proof. unfold size. rewrite slength_app. lia. Qed.

Lemma size_nonneg (a : string) : 0 <= size a.
Proof. unfold size. lia. Qed.

Lemma to_nat_size (a : string) : Z.to_nat (size a) = String.length a.
Proof. unfold size. lia. Qed.

Lemma sdrop_app (a b : string) : drop (String.length a) (a +:+ b) = b.
Proof. induction a as [|x a IH]; simpl; [now destruct b | exact IH]. Qed.

Lemma stake_app (a b : string) : take (String.length a) (a +:+ b) = a.
Proof.
  induction a as [|x a IH]; simpl; [now destruct b | now rewrite IH].
Qed.

Lemma take_all (a : string) : take (String.length a) a = a.
Proof. rewrite <- (sapp_nil_r a) at 2. apply stake_app. Qed.

Lemma has_char_app (c : ascii) (a b : string) :
  has_char c (a +:+ b) = has_char c a || has_char c b.
Proof.
  induction a as [|x a IH]; simpl; [reflexivity|].
  rewrite IH. now rewrite orb_assoc.
Qed.

Lemma index_char_none (c : ascii) (s : string) :
  index_char c s = None <-> has_char c s = false.
Proof.
  induction s as [|x s IH]; simpl; [tauto|].
  destruct (Ascii.eqb x c); simpl; [split; discriminate|].
  rewrite <- IH. destruct (index_char c s); simpl; split; congruence.
Qed.

Lemma index_char_first (c : ascii) (a b : string) :
  has_char c a = false ->
  index_char c (a +:+ String c b) = Some (String.length a).
Proof.
  induction a as [|x a IH]; simpl; intros H.
  - now rewrite Ascii.eqb_refl.
  - apply orb_false_iff in H as [Hx Ha]. rewrite Hx, (IH Ha). reflexivity.
Qed.

Lemma index_char_split (c : ascii) (s : string) (i : nat) :
  index_char c s = Some i ->
  exists a b, s = a +:+ String c b /\ has_char c a = false
              /\ i = String.length a.
Proof.
  revert i. induction s as [|x s IH]; simpl; intros i H; [discriminate|].
  destruct (Ascii.eqb_spec x c) as [->|Hne].
  - injection H as <-. now exists EmptyString, s.
  - destruct (index_char c s) as [j|]; [|discriminate].
    injection H as <-. destruct (IH j eq_refl) as (a & b & -> & Ha & ->).
    exists (String x a), b. simpl. repeat split.
    apply Ascii.eqb_neq in Hne. now rewrite Hne, Ha.
Qed.

(** [find] from a position that is the length of a known prefix. *)
Lemma find_char_after (c : ascii) (a b : string) :
  find_char (a +:+ b) c (size a) =
  match index_char c b with
  | Some i => size a + Z.of_nat i
  | None => npos
  end.
Proof.
  unfold find_char. rewrite size_app.
  pose proof (size_nonneg b).
  destruct (Z.ltb_spec (size a + size b) (size a)); [lia|].
  now rewrite to_nat_size, sdrop_app.
Qed.

Lemma find_char_0 (c : ascii) (s : string) :
  find_char s c 0 =
  match index_char c s with
  | Some i => Z.of_nat i
  | None => npos
  end.
Proof. apply (find_char_after c EmptyString s). Qed.

Lemma insert_at (a b t : string) :
  insert (a +:+ b) (size a) t = a +:+ t +:+ b.
Proof. unfold insert. now rewrite to_nat_size, stake_app, sdrop_app. Qed.

Lemma wrap_small (z : Z) : 0 <= z <= npos -> wrap z = z.
Proof. unfold wrap, npos. intros H. apply Z.mod_small. lia. Qed.

End StdStringFacts.

Import StdStringFacts.

(** ** [quote_path] *)

Lemma escape_spaces_app (a b : string) :
  escape_spaces (a +:+ b) = escape_spaces a +:+ escape_spaces b.
Proof.
  induction a as [|x a IH]; simpl; [reflexivity|].
  destruct (Ascii.eqb x space); simpl; now rewrite IH.
Qed.

Lemma escape_spaces_id (a : string) :
  has_char space a = false -> escape_spaces a = a.
Proof.
  induction a as [|x a IH]; simpl; [reflexivity|]. intros H.
  apply orb_false_iff in H as [Hx Ha]. now rewrite Hx, (IH Ha).
Qed.

Lemma escape_spaces_size (a : string) : size a <= size (escape_spaces a).
Proof.
  unfold size. induction a as [|x a IH]; simpl; [lia|].
  destruct (Ascii.eqb x space); simpl String.length; lia.
Qed.

(** The loop invariant: [done] is already escaped, [todo] is still to be
    searched, and [pos] stands between the two. *)
Lemma quote_loop_invariant (fuel : nat) :
  forall todo done,
    (String.length todo < fuel)%nat ->
    fits (done +:+ escape_spaces todo) ->
    quote_loop fuel (done +:+ todo) (size done) = done +:+ escape_spaces todo.
Proof.
  induction fuel as [|fuel IH]; intros todo done Hfuel Hfit; [lia|].
  cbn [quote_loop]. rewrite find_char_after.
  destruct (index_char space todo) as [i|] eqn:Hidx.
  - apply index_char_split in Hidx as (a & b & -> & Ha & ->).
    unfold fits in Hfit.
    rewrite escape_spaces_app, (escape_spaces_id a Ha) in Hfit |- *.
    cbn [escape_spaces] in Hfit |- *. rewrite Ascii.eqb_refl in Hfit |- *.
    rewrite slength_app in Hfuel. cbn [String.length] in Hfuel.
    pose proof (escape_spaces_size b) as Hb.
    set (done' := done +:+ a +:+ str backslash +:+ str space).
    assert (Hsz : size done' = size done + size a + 2).
    { unfold done'. rewrite !size_app. unfold size. simpl. lia. }
    assert (Hall : size done' + size (escape_spaces b) <= npos).
    { rewrite Hsz. rewrite !size_app in Hfit. unfold size in *.
      cbn [String.length] in Hfit. lia. }
    pose proof (size_nonneg done). pose proof (size_nonneg a).
    pose proof (size_nonneg b).
    replace (size done + Z.of_nat (String.length a)) with (size (done +:+ a))
      by (rewrite size_app; reflexivity).
    destruct (Z.eqb_spec (size (done +:+ a)) npos) as [E|_].
    { rewrite size_app in E. lia. }
    rewrite <- sapp_assoc, insert_at.
    rewrite wrap_small by (rewrite size_app; lia).
    replace ((done +:+ a) +:+ str backslash +:+ String space b)
      with (done' +:+ b)
      by (unfold done'; rewrite !sapp_assoc; reflexivity).
    replace (size (done +:+ a) + 2) with (size done')
      by (rewrite Hsz, size_app; lia).
    rewrite IH.
    + unfold done'. rewrite !sapp_assoc. reflexivity.
    + lia.
    + unfold fits. rewrite size_app. lia.
  - apply index_char_none in Hidx. rewrite escape_spaces_id by exact Hidx.
    now rewrite Z.eqb_refl.
Qed.

(** C9. On a Unix-like host [quote_path] puts one backslash in front of
    every space of its argument and leaves every other character as it is,
    so a path without spaces comes back unchanged; on Windows the result is
    the argument between two double quotes. *)
Theorem quote_path_escapes_spaces_only (p : string) :
  fits (escape_spaces p) ->
  quote_path Posix p = escape_spaces p
  /\ (has_char space p = false -> quote_path Posix p = p)
  /\ quote_path Windows p = str dquote +:+ p +:+ str dquote.
Proof.
  intros Hfit.
  assert (E : quote_path Posix p = escape_spaces p).
  { unfold quote_path.
    apply (quote_loop_invariant (S (String.length p)) p EmptyString); [lia|].
    exact Hfit. }
  split; [exact E|]. split; [|reflexivity].
  intros Hns. rewrite E. now apply escape_spaces_id.
Qed.

Lemma quote_path_escapes_spaces_only_witness :
  fits (escape_spaces "my project dir")
  /\ quote_path Posix "my project dir" = escape_spaces "my project dir".
Proof.
  assert (H : fits (escape_spaces "my project dir")).
  { unfold fits. vm_compute. discriminate. }
  split; [exact H|].
  exact (proj1 (quote_path_escapes_spaces_only "my project dir" H)).
Defined.

Module StdStringSearch.

Lemma starts_with_app (pat b : string) : starts_with pat (pat +:+ b) = true.
Proof.
  induction pat as [|x pat IH]; simpl; [reflexivity|].
  now rewrite Ascii.eqb_refl.
Qed.

Lemma starts_with_inv (pat s : string) :
  starts_with pat s = true -> exists b, s = pat +:+ b.
Proof.
  revert s. induction pat as [|x pat IH]; intros s H.
  - now exists s.
  - destruct s as [|c s]; simpl in H; [discriminate|].
    apply andb_true_iff in H as [Hx Hs].
    apply Ascii.eqb_eq in Hx as ->. destruct (IH s Hs) as [b ->].
    now exists b.
Qed.

Lemma index_str_inv (pat s : string) (i : nat) :
  index_str pat s = Some i ->
  exists a b, s = a +:+ pat +:+ b /\ i = String.length a.
Proof.
  revert i. induction s as [|c s IH]; intros i H.
  - simpl in H. destruct (starts_with pat EmptyString) eqn:E; [|discriminate].
    injection H as <-. apply starts_with_inv in E as [b ->].
    now exists EmptyString, b.
  - cbn [index_str] in H.
    destruct (starts_with pat (String c s)) eqn:E.
    + injection H as <-. apply starts_with_inv in E as [b E].
      exists EmptyString, b. now rewrite E.
    + destruct (index_str pat s) as [j|]; [|discriminate].
      injection H as <-. destruct (IH j eq_refl) as (a & b & -> & ->).
      now exists (String c a), b.
Qed.

Lemma index_str_found (pat a b : string) :
  exists i, index_str pat (a +:+ pat +:+ b) = Some i.
Proof.
  induction a as [|c a [i IH]].
  - exists O. simpl. destruct (pat +:+ b) eqn:E; cbn [index_str];
      rewrite <- E, starts_with_app; reflexivity.
  - simpl. cbn [index_str].
    destruct (starts_with pat (String c (a +:+ pat +:+ b))); [now exists O|].
    rewrite IH. now exists (S i).
Qed.

Lemma index_str_none (pat s : string) :
  index_str pat s = None <-> ~ contains pat s.
Proof.
  split.
  - intros H (a & b & ->). destruct (index_str_found pat a b) as [i Hi].
    congruence.
  - intros H. destruct (index_str pat s) as [i|] eqn:E; [|reflexivity].
    exfalso. apply H. apply index_str_inv in E as (a & b & -> & _).
    now exists a, b.
Qed.

Lemma find_str_0 (pat s : string) :
  find_str s pat 0 =
  match index_str pat s with
  | Some i => Z.of_nat i
  | None => npos
  end.
Proof.
  unfold find_str. pose proof (size_nonneg s).
  destruct (Z.ltb_spec (size s) 0); [lia|].
  change (Z.to_nat 0) with O.
  replace (drop 0 s) with s by now destruct s.
  now destruct (index_str pat s).
Qed.

(** [find] reports a pattern exactly when the string holds it. *)
Lemma find_str_npos (pat s : string) :
  fits s -> pat <> EmptyString ->
  (find_str s pat 0 =? npos) = false <-> contains pat s.
Proof.
  intros Hfit Hpat. rewrite find_str_0.
  destruct (index_str pat s) as [i|] eqn:E.
  - apply index_str_inv in E as (a & b & -> & ->).
    split; intros _; [now exists a, b|].
    apply Z.eqb_neq. unfold fits in Hfit. rewrite !size_app in Hfit.
    destruct pat as [|x pat]; [congruence|]. unfold size in *.
    cbn [String.length] in Hfit. lia.
  - rewrite Z.eqb_refl. split; [discriminate|].
    intros Hc. now apply index_str_none in E.
Qed.

Lemma find_str_absent (pat s : string) :
  ~ contains pat s -> find_str s pat 0 = npos.
Proof.
  intros H. apply index_str_none in H. now rewrite find_str_0, H.
Qed.

End StdStringSearch.

Import StdStringSearch.

(** ** The manifest reader *)

Section ManifestFacts.

Lemma count_char_app (c : ascii) (a b : string) :
  count_char c (a +:+ b) = (count_char c a + count_char c b)%nat.
Proof. induction a as [|x a IH]; simpl; [reflexivity | rewrite IH; lia]. Qed.

Lemma count_char_zero (c : ascii) (s : string) :
  count_char c s = O <-> has_char c s = false.
Proof.
  induction s as [|x s IH]; simpl; [tauto|].
  destruct (Ascii.eqb x c); simpl; [split; [lia | discriminate] | exact IH].
Qed.

Lemma split_at_first (c : ascii) (s : string) :
  (1 <= count_char c s)%nat ->
  exists a b, s = a +:+ String c b /\ has_char c a = false.
Proof.
  intros H. destruct (index_char c s) as [i|] eqn:E.
  - apply index_char_split in E as (a & b & -> & Ha & _). now exists a, b.
  - apply index_char_none, count_char_zero in E. lia.
Qed.

Lemma count_char_split (c : ascii) (a b : string) :
  has_char c a = false ->
  count_char c (a +:+ String c b) = S (count_char c b).
Proof.
  intros Ha. apply count_char_zero in Ha.
  rewrite count_char_app, Ha. simpl. now rewrite Ascii.eqb_refl.
Qed.

Lemma open_line_split (s : string) :
  count_char dquote s = 1%nat ->
  exists a v, s = a +:+ String dquote v
              /\ has_char dquote a = false /\ has_char dquote v = false.
Proof.
  intros H. destruct (split_at_first dquote s) as (a & v & -> & Ha); [lia|].
  exists a, v. repeat split; [exact Ha|].
  rewrite count_char_split in H by exact Ha.
  apply count_char_zero. lia.
Qed.

Lemma closed_line_split (s : string) :
  (2 <= count_char dquote s)%nat ->
  exists a v b, s = a +:+ String dquote (v +:+ String dquote b)
                /\ has_char dquote a = false /\ has_char dquote v = false.
Proof.
  intros H. destruct (split_at_first dquote s) as (a & r & -> & Ha); [lia|].
  rewrite count_char_split in H by exact Ha.
  destruct (split_at_first dquote r) as (v & b & -> & Hv); [lia|].
  now exists a, v, b.
Qed.

Lemma marker_brings_quote (s : string) :
  contains MARKER s -> (1 <= count_char dquote s)%nat.
Proof.
  intros (a & b & ->). rewrite !count_char_app.
  change (count_char dquote MARKER) with 1%nat. lia.
Qed.

Lemma marker_nonempty : MARKER <> EmptyString.
Proof. discriminate. Qed.

(** A line without the marker is passed over. *)
Lemma scan_line_no_marker (line : string) :
  ~ contains MARKER line -> scan_line line = None.
Proof.
  intros H. unfold scan_line.
  now rewrite (find_str_absent _ _ H), Z.eqb_refl.
Qed.

(** With the marker present, the first two double quotes of the line
    delimit the value. *)
Lemma scan_line_closed (a v b : string) :
  let line := a +:+ String dquote (v +:+ String dquote b) in
  fits line -> contains MARKER line ->
  has_char dquote a = false -> has_char dquote v = false ->
  scan_line line = Some v.
Proof.
  intros line Hfit Hm Ha Hv. unfold scan_line.
  rewrite (proj2 (find_str_npos MARKER line Hfit marker_nonempty) Hm).
  cbn [negb].
  assert (H0 : find_char line dquote 0 = size a).
  { unfold line. now rewrite find_char_0, (index_char_first dquote a _ Ha). }
  set (a' := a +:+ str dquote).
  assert (Hline : line = a' +:+ (v +:+ String dquote b)).
  { unfold line, a'. now rewrite sapp_assoc. }
  assert (Ha' : size a' = size a + 1) by (unfold a'; now rewrite size_app).
  assert (Hsz : size line = size a' + size v + 1 + size b).
  { rewrite Hline.
    change (String dquote b) with (str dquote +:+ b).
    rewrite !size_app. change (size (str dquote)) with 1. lia. }
  unfold fits in Hfit. rewrite Hsz in Hfit.
  pose proof (size_nonneg a). pose proof (size_nonneg v).
  pose proof (size_nonneg b).
  assert (Hstart : wrap (find_char line dquote 0 + 1) = size a').
  { rewrite H0, wrap_small by lia. lia. }
  rewrite Hstart.
  assert (Hend : find_char line dquote (size a') = size a' + size v).
  { rewrite Hline, find_char_after, (index_char_first dquote v _ Hv).
    reflexivity. }
  rewrite Hend.
  destruct (Z.eqb_spec (size a') npos); [lia|].
  destruct (Z.eqb_spec (size a' + size v) npos); [lia|].
  cbn [negb andb]. f_equal.
  replace (size a' + size v - size a') with (size v) by lia.
  rewrite wrap_small by lia. unfold substr.
  now rewrite Hline, !to_nat_size, sdrop_app, stake_app.
Qed.

(** Without a second double quote the line is passed over. *)
Lemma scan_line_open (a v : string) :
  let line := a +:+ String dquote v in
  fits line ->
  has_char dquote a = false -> has_char dquote v = false ->
  scan_line line = None.
Proof.
  intros line Hfit Ha Hv. unfold scan_line.
  destruct (negb (find_str line MARKER 0 =? npos)); [|reflexivity].
  assert (H0 : find_char line dquote 0 = size a).
  { unfold line. now rewrite find_char_0, (index_char_first dquote a _ Ha). }
  set (a' := a +:+ str dquote).
  assert (Hline : line = a' +:+ v).
  { unfold line, a'. now rewrite sapp_assoc. }
  assert (Ha' : size a' = size a + 1) by (unfold a'; now rewrite size_app).
  unfold fits in Hfit. rewrite Hline, size_app in Hfit.
  pose proof (size_nonneg a). pose proof (size_nonneg v).
  assert (Hstart : wrap (find_char line dquote 0 + 1) = size a').
  { rewrite H0, wrap_small by lia. lia. }
  rewrite Hstart.
  assert (Hend : find_char line dquote (size a') = npos).
  { now rewrite Hline, find_char_after, (proj2 (index_char_none dquote v) Hv). }
  now rewrite Hend, Z.eqb_refl, andb_false_r.
Qed.

(** The lines the loop body accepts. *)
Lemma scan_line_accepts (line : string) :
  fits line -> (is_Some (scan_line line) <-> closed_marker_line line).
Proof.
  intros Hfit. split.
  - intros Hs.
    assert (Hm : contains MARKER line).
    { destruct (index_str MARKER line) eqn:E.
      - apply index_str_inv in E as (a & b & -> & _). now exists a, b.
      - apply index_str_none in E. rewrite scan_line_no_marker in Hs by exact E.
        now destruct Hs. }
    split; [exact Hm|]. pose proof (marker_brings_quote line Hm) as H1.
    destruct (Nat.eq_dec (count_char dquote line) 1%nat) as [E1|]; [|lia].
    destruct (open_line_split line E1) as (a & v & -> & Ha & Hv).
    rewrite (scan_line_open a v Hfit Ha Hv) in Hs. now destruct Hs.
  - intros [Hm H2].
    destruct (closed_line_split line H2) as (a & v & b & -> & Ha & Hv).
    rewrite (scan_line_closed a v b Hfit Hm Ha Hv). now exists v.
Qed.

Lemma scan_line_rejects (line : string) :
  fits line -> (scan_line line = None <-> ~ closed_marker_line line).
Proof.
  intros Hfit. rewrite <- (scan_line_accepts line Hfit).
  destruct (scan_line line); split; intros H; try congruence.
  - exfalso. apply H. now eexists.
  - now intros [? ?].
Qed.

(** The argument of [substr] at line 84 is a position inside the line. *)
Lemma substr_call_in_range (line : string) (start : Z) :
  find_char line dquote start <> npos -> start <= size line.
Proof.
  unfold find_char. destruct (Z.ltb_spec (size line) start); [congruence|lia].
Qed.

Lemma scan_lines_skip (pre rest : list string) (init : string) :
  Forall (fun l => scan_line l = None) pre ->
  scan_lines (pre ++ rest) init = scan_lines rest init.
Proof.
  induction 1 as [|l pre Hl _ IH]; [reflexivity|].
  simpl. now rewrite Hl.
Qed.

Lemma scan_lines_hit (pre post : list string) (l v init : string) :
  Forall (fun l => scan_line l = None) pre ->
  scan_line l = Some v ->
  scan_lines (pre ++ l :: post) init = v.
Proof.
  intros Hpre Hl. rewrite scan_lines_skip by exact Hpre.
  simpl. now rewrite Hl.
Qed.

Lemma scan_lines_miss (lines : list string) (init : string) :
  Forall (fun l => scan_line l = None) lines ->
  scan_lines lines init = init.
Proof.
  intros H. rewrite <- (List.app_nil_r lines).
  now rewrite scan_lines_skip.
Qed.

(** The scan either passes over every line or stops at a first accepted
    one. *)
Lemma scan_lines_cases (lines : list string) :
  Forall (fun l => scan_line l = None) lines
  \/ exists pre l post v,
       lines = pre ++ l :: post
       /\ Forall (fun l => scan_line l = None) pre
       /\ scan_line l = Some v.
Proof.
  induction lines as [|l lines IH]; [now left|].
  destruct (scan_line l) as [v|] eqn:E.
  - right. exists [], l, lines, v. repeat split; [constructor | exact E].
  - destruct IH as [IH|(pre & l' & post & v & -> & Hpre & Hl')].
    + left. now constructor.
    + right. exists (l :: pre), l', post, v. repeat split; [|exact Hl'].
      now constructor.
Qed.

(** A well-formed name line: the value follows the marker directly. *)
Lemma scan_line_value_after_marker (a v b : string) :
  let line := a +:+ MARKER +:+ v +:+ str dquote +:+ b in
  fits line ->
  has_char dquote a = false -> has_char dquote v = false ->
  scan_line line = Some v.
Proof.
  intros line Hfit Ha Hv.
  assert (E : line = (a +:+ "name = ") +:+ String dquote (v +:+ String dquote b)).
  { unfold line, MARKER. rewrite !sapp_assoc. reflexivity. }
  rewrite E. rewrite E in Hfit. apply scan_line_closed; [exact Hfit | | | exact Hv].
  - rewrite <- E. now exists a, (v +:+ str dquote +:+ b).
  - rewrite has_char_app, Ha. reflexivity.
Qed.

End ManifestFacts.

Lemma read_project_name_parse (w : World) (p : path) (content : string) :
  read_file w p = Some content ->
  read_project_name w p =
  if StdString.empty (parse_project_name content) then Failed MissingField
  else Name (parse_project_name content).
Proof. intros H. unfold read_project_name. now rewrite H. Qed.

Lemma rejects_all (lines : list string) :
  Forall fits lines ->
  Forall (fun x => ~ closed_marker_line x) lines <->
  Forall (fun l => scan_line l = None) lines.
Proof.
  intros Hfit. rewrite !Forall_forall. rewrite Forall_forall in Hfit.
  split; intros H l Hl; apply (scan_line_rejects l (Hfit l Hl)), H, Hl.
Qed.

(** C2. On a line whose name key comes after another quoted value, the
    loop body returns the text between the first two double quotes of the
    line, not the text between the quotes that follow the marker. *)
Theorem scan_line_uses_first_quotes_of_line :
  inline_table_line
  = ("package = { version = " +:+ str dquote +:+ "1.0" +:+ str dquote +:+ ", ")
    +:+ MARKER +:+ "demo" +:+ str dquote +:+ " }"
  /\ scan_line inline_table_line = Some "1.0"
  /\ read_project_name (demo_world inline_table_line) demo_manifest_path
     = Name "1.0".
Proof. repeat split; vm_compute; reflexivity. Qed.

(** C3, as stated: reading back the manifest written for the empty name
    does not give the empty name. *)
Lemma roundtrip_fails_on_empty_name :
  ~ (forall X : string,
        has_char dquote X = false ->
        read_project_name (demo_world (sail_toml_content X)) demo_manifest_path
        = Name X).
Proof.
  intros H. specialize (H EmptyString eq_refl). vm_compute in H. discriminate.
Qed.

(** C3, amended. For every non-empty name [X] without a double quote, a
    manifest in which the line [name = X] (with [X] between quotes) is the
    first line holding the marker is read back as [X]. *)
Theorem read_project_name_roundtrip (w : World) (manifest_path : path)
    (content : string) (pre post : list string) (X : string) :
  read_file w manifest_path = Some content ->
  getlines content = pre ++ name_line X :: post ->
  Forall (fun l => ~ contains MARKER l) pre ->
  fits (name_line X) ->
  has_char dquote X = false ->
  X <> EmptyString ->
  read_project_name w manifest_path = Name X.
Proof.
  intros Hread Hlines Hpre Hfit HX Hne.
  rewrite (read_project_name_parse _ _ _ Hread).
  unfold parse_project_name. rewrite Hlines.
  rewrite (scan_lines_hit pre post (name_line X) X).
  - destruct X; [congruence | reflexivity].
  - eapply Forall_impl; [exact Hpre|]. intros l. apply scan_line_no_marker.
  - apply (scan_line_value_after_marker EmptyString X EmptyString);
      [|reflexivity|exact HX].
    cbn beta zeta. simpl. unfold name_line in Hfit. exact Hfit.
Qed.

Lemma read_project_name_roundtrip_witness :
  read_project_name (demo_world (sail_toml_content "demo")) demo_manifest_path
  = Name "demo".
Proof.
  apply (read_project_name_roundtrip _ _ (sail_toml_content "demo")
           ["[project]"]
           ["version = " +:+ str dquote +:+ "0.1.0" +:+ str dquote;
            EmptyString; "[dependencies]"]).
  - reflexivity.
  - reflexivity.
  - constructor; [|constructor]. apply index_str_none. reflexivity.
  - unfold fits. vm_compute. discriminate.
  - reflexivity.
  - discriminate.
Defined.

(** C4, as stated: a manifest can hold a line with the marker and still be
    rejected for a missing name. *)
Lemma missing_field_despite_marker_line :
  ~ (forall content : string,
        read_project_name (demo_world content) demo_manifest_path
        = Failed MissingField
        <-> ~ exists l, In l (getlines content) /\ contains MARKER l).
Proof.
  intros H. destruct (H (sail_toml_content EmptyString)) as [H1 _].
  apply H1; [vm_compute; reflexivity|].
  exists (name_line EmptyString). split.
  - vm_compute. auto.
  - now exists EmptyString, (str dquote).
Qed.

(** C4, amended. The lines are scanned in file order.  The first line that
    holds the marker and a second double quote decides the result, whatever
    section it is in and whatever follows it; reading fails for a missing
    field exactly when there is no such line or the value taken from the
    first such line is empty. *)
Theorem first_closed_marker_line_wins (w : World) (manifest_path : path)
    (content : string) :
  read_file w manifest_path = Some content ->
  Forall fits (getlines content) ->
  (forall pre l post,
      getlines content = pre ++ l :: post ->
      Forall (fun x => ~ closed_marker_line x) pre ->
      closed_marker_line l ->
      exists v, scan_line l = Some v
                /\ read_project_name w manifest_path
                   = (if StdString.empty v then Failed MissingField else Name v))
  /\ (read_project_name w manifest_path = Failed MissingField <->
      Forall (fun x => ~ closed_marker_line x) (getlines content)
      \/ exists pre l post,
           getlines content = pre ++ l :: post
           /\ Forall (fun x => ~ closed_marker_line x) pre
           /\ closed_marker_line l
           /\ scan_line l = Some EmptyString).
Proof.
  intros Hread Hfit.
  rewrite (read_project_name_parse _ _ _ Hread). unfold parse_project_name.
  assert (Hfirst : forall pre l post,
             getlines content = pre ++ l :: post ->
             Forall (fun x => ~ closed_marker_line x) pre ->
             closed_marker_line l ->
             exists v, scan_line l = Some v
                       /\ scan_lines (getlines content) EmptyString = v).
  { intros pre l post E Hpre Hl. rewrite E in Hfit |- *.
    apply Forall_app in Hfit as [Hfpre Hfl]. apply Forall_cons in Hfl as [Hfl _].
    apply (scan_line_accepts l Hfl) in Hl as [v Hv]. exists v. split; [exact Hv|].
    apply scan_lines_hit; [|exact Hv]. now apply rejects_all. }
  split.
  - intros pre l post E Hpre Hl.
    destruct (Hfirst pre l post E Hpre Hl) as (v & Hv & ->). now exists v.
  - split.
    + intros Hfail.
      destruct (scan_lines_cases (getlines content))
        as [Hnone|(pre & l & post & v & E & Hpre & Hl)].
      * left. now apply rejects_all.
      * right. exists pre, l, post.
        assert (Hfit' := Hfit). rewrite E in Hfit'.
        apply Forall_app in Hfit' as [Hfpre Hfl].
        apply Forall_cons in Hfl as [Hfl _].
        assert (Hc : closed_marker_line l).
        { apply (scan_line_accepts l Hfl). now exists v. }
        assert (Hp : Forall (fun x => ~ closed_marker_line x) pre)
          by now apply rejects_all.
        repeat split; [exact E | exact Hp | apply Hc | apply Hc |].
        destruct (Hfirst pre l post E Hp Hc) as (v' & Hv' & Hres).
        rewrite Hres in Hfail. destruct v'; [exact Hv' | discriminate].
    + intros [Hnone|(pre & l & post & E & Hpre & Hl & Hv)].
      * rewrite scan_lines_miss; [reflexivity|]. now apply rejects_all.
      * destruct (Hfirst pre l post E Hpre Hl) as (v' & Hv' & ->).
        rewrite Hv in Hv'. now injection Hv' as <-.
Qed.

Lemma first_closed_marker_line_wins_witness :
  exists v, scan_line (name_line "demo") = Some v
            /\ read_project_name (demo_world (sail_toml_content "demo"))
                 demo_manifest_path
               = (if StdString.empty v then Failed MissingField else Name v).
Proof.
  assert (Hread : read_file (demo_world (sail_toml_content "demo"))
                    demo_manifest_path = Some (sail_toml_content "demo"))
    by reflexivity.
  assert (Hfit : Forall fits (getlines (sail_toml_content "demo"))).
  { vm_compute getlines. repeat constructor; unfold fits; vm_compute; discriminate. }
  refine (proj1 (first_closed_marker_line_wins _ _ _ Hread Hfit)
            ["[project]"] (name_line "demo")
            ["version = " +:+ str dquote +:+ "0.1.0" +:+ str dquote;
             EmptyString; "[dependencies]"] _ _ _).
  - reflexivity.
  - constructor; [|constructor]. intros [Hm _]. revert Hm.
    apply index_str_none. reflexivity.
  - split; [now exists EmptyString, ("demo" +:+ str dquote) | vm_compute; lia].
Defined.

(** C10. A line that holds the marker but only one double quote neither
    ends the scan nor sets the name: the result is the one obtained
    without that line, and a well-formed name line right after it is
    still read. *)
Theorem unterminated_marker_line_is_skipped (pre rest : list string)
    (l init : string) :
  fits l -> contains MARKER l -> count_char dquote l = 1%nat ->
  scan_line l = None
  /\ scan_lines (pre ++ l :: rest) init = scan_lines (pre ++ rest) init
  /\ (forall X, fits (name_line X) -> has_char dquote X = false ->
        scan_lines (l :: name_line X :: rest) init = X).
Proof.
  intros Hfit Hm Hone.
  assert (Hl : scan_line l = None).
  { destruct (open_line_split l Hone) as (a & v & -> & Ha & Hv).
    now apply scan_line_open. }
  split; [exact Hl|]. split.
  - induction pre as [|x pre IH]; simpl.
    + now rewrite Hl.
    + now rewrite IH.
  - intros X HfX HX. simpl. rewrite Hl.
    assert (E : scan_line (name_line X) = Some X).
    { apply (scan_line_value_after_marker EmptyString X EmptyString);
        [exact HfX | reflexivity | exact HX]. }
    now rewrite E.
Qed.

Lemma unterminated_marker_line_is_skipped_witness :
  scan_line open_line = None
  /\ scan_lines (["[project]"] ++ open_line :: [name_line "demo"]) EmptyString
     = scan_lines (["[project]"] ++ [name_line "demo"]) EmptyString
  /\ (forall X, fits (name_line X) -> has_char dquote X = false ->
        scan_lines (open_line :: name_line X :: [name_line "demo"]) EmptyString = X).
Proof.
  apply (unterminated_marker_line_is_skipped ["[project]"] [name_line "demo"]
           open_line EmptyString).
  - unfold fits. vm_compute. discriminate.
  - now exists EmptyString, "demo".
  - reflexivity.
Defined.

(** ** Paths and the artifact path *)

Lemma split_names_plain (cur s : string) :
  has_char slash s = false -> Path.split_names cur s = [cur +:+ s].
Proof.
  revert cur. induction s as [|c s IH]; intros cur H; simpl.
  - now rewrite sapp_nil_r.
  - simpl in H. apply orb_false_iff in H as [Hc Hs]. rewrite Hc.
    rewrite (IH _ Hs), sapp_assoc. reflexivity.
Qed.

Lemma starts_with_slash_plain (s : string) :
  has_char slash s = false -> starts_with (str slash) s = false.
Proof.
  destruct s as [|c s]; [reflexivity|]. cbn [has_char].
  intros H. apply orb_false_iff in H as [Hc _].
  unfold str. cbn [starts_with]. now rewrite Ascii.eqb_sym, Hc.
Qed.

Lemma of_string_plain (s : string) :
  s <> EmptyString -> has_char slash s = false ->
  Path.of_string s = Path.mk false [s].
Proof.
  intros Hne Hs. unfold Path.of_string.
  rewrite (split_names_plain _ _ Hs), (starts_with_slash_plain _ Hs).
  destruct s as [|c s]; [congruence|]. reflexivity.
Qed.

(** C6. The artifact path is the target directory joined with the project
    name followed by the platform suffix: nothing on a Unix-like host,
    [.exe] on Windows.  The function takes no file tree, so it cannot look
    at one.  For a plain project name the result is the target directory
    extended by one file name. *)
Theorem get_executable_path_spec (host : platform) (target_dir : path)
    (project_name : string) :
  get_executable_path Posix target_dir project_name
  = target_dir </> project_name
  /\ get_executable_path Windows target_dir project_name
     = target_dir </> (project_name +:+ ".exe")
  /\ (project_name <> EmptyString -> has_char slash project_name = false ->
      get_executable_path host target_dir project_name
      = Path.mk (Path.has_root target_dir)
          (Path.names target_dir ++ [project_name +:+ EXECUTABLE_EXTENSION host])).
Proof.
  unfold get_executable_path. split; [|split].
  - simpl. now rewrite sapp_nil_r.
  - reflexivity.
  - intros Hne Hs. rewrite of_string_plain.
    + reflexivity.
    + destruct project_name; [congruence | discriminate].
    + rewrite has_char_app, Hs. now destruct host.
Qed.

Lemma get_executable_path_spec_witness :
  get_executable_path Windows (Path.mk true ["w"; "demo"; "target"; "debug"]) "demo"
  = Path.mk true ["w"; "demo"; "target"; "debug"; "demo.exe"].
Proof.
  apply (proj2 (proj2 (get_executable_path_spec Windows
                         (Path.mk true ["w"; "demo"; "target"; "debug"]) "demo"))).
  - discriminate.
  - reflexivity.
Defined.

(** ** The project locator *)

Lemma prefixes_snoc (xs : list string) (x : string) :
  prefixes (xs ++ [x]) = prefixes xs ++ [xs ++ [x]].
Proof.
  induction xs as [|a xs IH]; [reflexivity|].
  simpl. rewrite IH, map_app. reflexivity.
Qed.

Lemma ancestor_chain_root (r : bool) :
  ancestor_chain (Path.mk r []) = [Path.mk r []].
Proof. reflexivity. Qed.

Lemma ancestor_chain_snoc (r : bool) (xs : list string) (x : string) :
  ancestor_chain (Path.mk r (xs ++ [x]))
  = Path.mk r (xs ++ [x]) :: ancestor_chain (Path.mk r xs).
Proof.
  unfold ancestor_chain. simpl. rewrite prefixes_snoc, rev_app_distr.
  reflexivity.
Qed.

Lemma ancestor_chain_nonempty (p : path) : ancestor_chain p <> [].
Proof.
  destruct p as [r cs]. destruct cs as [|c cs _] using rev_ind.
  - discriminate.
  - rewrite ancestor_chain_snoc. discriminate.
Qed.

Lemma inspected_snoc (r : bool) (xs : list string) (x : string) :
  inspected (Path.mk r (xs ++ [x]))
  = Path.mk r (xs ++ [x]) :: inspected (Path.mk r xs).
Proof.
  unfold inspected. rewrite ancestor_chain_snoc.
  pose proof (ancestor_chain_nonempty (Path.mk r xs)).
  simpl. now destruct (ancestor_chain (Path.mk r xs)).
Qed.

(** The loop returns the nearest inspected directory that holds a
    manifest, and the empty path when there is none. *)
Lemma locate_loop_nearest (w : World) (r : bool) (cs : list string) :
  forall fuel, (length cs < fuel)%nat ->
    locate_loop fuel w (Path.mk r cs)
    = default Path.empty (List.find (has_manifest w) (inspected (Path.mk r cs))).
Proof.
  induction cs as [|x xs IH] using rev_ind; intros fuel Hfuel.
  - destruct fuel; [lia|]. simpl.
    rewrite bool_decide_eq_false_2 by (intros H; now apply H). reflexivity.
  - destruct fuel; [lia|]. rewrite length_app in Hfuel. simpl in Hfuel.
    cbn [locate_loop].
    rewrite bool_decide_eq_true_2.
    2:{ unfold Path.root_path. simpl. intros E. injection E as E.
        now destruct xs. }
    rewrite inspected_snoc. cbn [List.find]. unfold has_manifest at 1.
    destruct (fs_exists w (Path.mk r (xs ++ [x]) </> MANIFEST)); [reflexivity|].
    unfold Path.parent_path. simpl. rewrite removelast_last.
    apply IH. lia.
Qed.

Lemma locate_root_nearest (w : World) (start_dir : path) :
  locate_root w start_dir
  = default Path.empty (List.find (has_manifest w) (inspected start_dir)).
Proof.
  destruct start_dir as [r cs]. unfold locate_root.
  apply locate_loop_nearest. simpl. lia.
Qed.

(** The root path is never the answer. *)
Lemma locate_root_not_root (w : World) (cs : list string) :
  locate_root w (Path.mk true cs) <> Path.mk true [].
Proof.
  rewrite locate_root_nearest.
  induction cs as [|x xs IH] using rev_ind.
  - discriminate.
  - rewrite inspected_snoc. cbn [List.find].
    destruct (has_manifest w (Path.mk true (xs ++ [x]))); [|exact IH].
    simpl. intros E. injection E as E. now destruct xs.
Qed.

(** C1. With a manifest in the filesystem root and nowhere else, the root
    is on the ancestor chain of the working directory and holds a manifest,
    but the loop ends before looking into it: the locator answers with the
    empty path, from [/work] as from the root itself, and the build stops
    with a failure and the message that no directory up the tree has a
    manifest. *)
Theorem locate_root_skips_filesystem_root :
  let w := root_manifest_world in
  ancestor_chain (current_path w) = [Path.mk true ["work"]; Path.mk true []]
  /\ List.find (has_manifest w) (ancestor_chain (current_path w))
     = Some (Path.mk true [])
  /\ locate_root w (current_path w) = Path.empty
  /\ locate_root w (Path.mk true []) = Path.empty
  /\ fst (build_project Posix (scripted 0 0) plain_what false w)
     = (EXIT_FAILURE, Path.empty)
  /\ output (snd (build_project Posix (scripted 0 0) plain_what false w))
     = ["Error: Sail.toml not found in current directory or any parent directory. Run 'sail init' first.\n"].
Proof. repeat split; vm_compute; reflexivity. Qed.

(** ** The build description *)

Lemma fs_exists_write_file (w : World) (p : path) (content : string) :
  fs_exists (write_file p content w) p = true.
Proof.
  unfold fs_exists, write_file, resolve. simpl.
  apply bool_decide_eq_true_2. rewrite lookup_insert_eq. now eexists.
Qed.

Lemma read_file_write_file (w : World) (p : path) (content : string) :
  read_file (write_file p content w) p = Some content.
Proof.
  unfold read_file, write_file, resolve. simpl. now rewrite lookup_insert_eq.
Qed.

Lemma ensure_present (project_root : path) (project_name : string) (w : World) :
  fs_exists w (project_root </> BUILD_DESCRIPTION) = true ->
  ensure_build_description project_root project_name w = (Next tt, w).
Proof. intros H. unfold ensure_build_description. now rewrite H. Qed.

(** C5. When the build description exists, whatever it holds, nothing is
    written and the world is left as it was; it is written, from the
    template, only when it is absent; hence a second call after a
    completed first one changes nothing. *)
Theorem ensure_build_description_idempotent (project_root : path)
    (project_name : string) (w : World) :
  let cmake_path := project_root </> BUILD_DESCRIPTION in
  (fs_exists w cmake_path = true ->
     ensure_build_description project_root project_name w = (Next tt, w))
  /\ (fs_exists w cmake_path = false ->
      can_open_for_write w cmake_path = true ->
      ensure_build_description project_root project_name w
      = (Next tt, write_file cmake_path (cmake_content project_name) w)
      /\ read_file (write_file cmake_path (cmake_content project_name) w)
           cmake_path
         = Some (cmake_content project_name))
  /\ (forall w1,
        ensure_build_description project_root project_name w = (Next tt, w1) ->
        forall other_name,
          ensure_build_description project_root other_name w1 = (Next tt, w1)).
Proof.
  intros cmake_path. split; [apply ensure_present|]. split.
  - intros Habsent Hopen. split; [|apply read_file_write_file].
    unfold ensure_build_description. fold cmake_path.
    now rewrite Habsent, Hopen.
  - intros w1 H other_name. apply ensure_present. fold cmake_path.
    unfold ensure_build_description in H. fold cmake_path in H.
    destruct (fs_exists w cmake_path) eqn:E; simpl in H.
    + now injection H as <-.
    + destruct (can_open_for_write w cmake_path); simpl in H; [|discriminate].
      injection H as <-. apply fs_exists_write_file.
Qed.

Lemma ensure_build_description_idempotent_witness :
  ensure_build_description demo_root "demo" edited_world = (Next tt, edited_world)
  /\ read_file edited_world (demo_root </> BUILD_DESCRIPTION)
     = Some "# edited by hand".
Proof.
  split; [|reflexivity].
  apply (proj1 (ensure_build_description_idempotent demo_root "demo" edited_world)).
  reflexivity.
Defined.

(** ** The orchestrator *)

Section OrchestratorFacts.

Variable host : platform.
Variable toolchain : string -> gmap location node -> Z * gmap location node.
Variable what : path -> string.

Lemma create_directories_inv (p : path) (w w' : World) :
  create_directories p w = Some w' -> exists t, w' = with_tree t w.
Proof.
  unfold create_directories.
  destruct (mkdirs (denied w) (tree w) [] (resolve w p)) as [t|];
    [|discriminate].
  intros H. injection H as <-. now exists t.
Qed.

Lemma mkdir_p_inv (p : path) (w w' : World) (o : outcome unit) :
  mkdir_p p w = (o, w') ->
  commands w' = commands w
  /\ (o = Next tt \/ exists e, o = Throw e).
Proof.
  unfold mkdir_p. destruct (create_directories p w) as [w1|] eqn:E;
    intros H; injection H as <- <-.
  - apply create_directories_inv in E as [t ->]. split; [reflexivity|now left].
  - split; [reflexivity|]. right. now eexists.
Qed.

Lemma ensure_inv (root : path) (name : string) (w w' : World)
    (o : outcome unit) :
  ensure_build_description root name w = (o, w') ->
  commands w' = commands w
  /\ (o = Next tt \/ o = Return (EXIT_FAILURE, Path.empty)).
Proof.
  unfold ensure_build_description.
  destruct (fs_exists w _); simpl;
    [|destruct (can_open_for_write w _); simpl];
    intros H; injection H as <- <-; split; auto.
Qed.

Lemma commands_differ (mode : string) (root build_dir : path) :
  cmake_configure_cmd host mode root build_dir <> cmake_build_cmd host mode build_dir.
Proof. unfold cmake_configure_cmd, cmake_build_cmd. simpl. discriminate. Qed.

(** What the two invocations leave in the command log, and the result that
    goes with it. *)
Lemma configure_and_build_trace (mode : string) (root target : path)
    (name : string) (w w' : World) (o : outcome (Z * path)) :
  configure_and_build host toolchain mode root target name w = (o, w') ->
  let build_dir := target </> "build" in
  let cfg := cmake_configure_cmd host mode root build_dir in
  let bld := cmake_build_cmd host mode build_dir in
  (commands w' = commands w /\ exists e, o = Throw e)
  \/ (exists s1, s1 <> 0 /\ commands w' = commands w ++ [(cfg, s1)]
                 /\ o = Return (EXIT_FAILURE, Path.empty))
  \/ (exists s2, s2 <> 0 /\ commands w' = commands w ++ [(cfg, 0); (bld, s2)]
                 /\ o = Return (EXIT_FAILURE, Path.empty))
  \/ (commands w' = commands w ++ [(cfg, 0); (bld, 0)]
      /\ o = Return (EXIT_SUCCESS, get_executable_path host target name)).
Proof.
  intros H build_dir cfg bld. unfold configure_and_build in H.
  fold build_dir in H. fold cfg in H. fold bld in H.
  unfold bind in H.
  destruct (mkdir_p build_dir w) as [o1 w1] eqn:E1.
  apply mkdir_p_inv in E1 as [C1 [->|[e ->]]].
  2:{ injection H as <- <-. left. split; [exact C1|now eexists]. }
  unfold system_, std_system in H.
  destruct (toolchain cfg (tree w1)) as [s1 t1].
  destruct (Z.eqb_spec s1 0) as [->|Hs1]; cbn [negb] in H.
  - cbn [tree] in H. destruct (toolchain bld t1) as [s2 t2].
    destruct (Z.eqb_spec s2 0) as [->|Hs2]; cbn [negb] in H.
    + injection H as <- <-. right. right. right. simpl.
      rewrite C1, <- List.app_assoc. split; reflexivity.
    + injection H as <- <-. right. right. left. exists s2. simpl.
      rewrite C1, <- List.app_assoc. repeat split. exact Hs2.
  - injection H as <- <-. right. left. exists s1. simpl.
    rewrite C1. repeat split. exact Hs1.
Qed.

(** The runs of [build_project], told by the commands they issue. *)
Lemma build_project_trace (release : bool) (w w' : World) (code : Z)
    (p : path) :
  build_project host toolchain what release w = ((code, p), w') ->
  let root := locate_root w (current_path w) in
  let target := root </> "target" </> target_subdir_of release in
  let build_dir := target </> "build" in
  let cfg := cmake_configure_cmd host (build_mode_of release) root build_dir in
  let bld := cmake_build_cmd host (build_mode_of release) build_dir in
  (commands w' = commands w /\ code = EXIT_FAILURE /\ p = Path.empty)
  \/ (exists s1, s1 <> 0 /\ commands w' = commands w ++ [(cfg, s1)]
                 /\ code = EXIT_FAILURE /\ p = Path.empty)
  \/ (exists s2, s2 <> 0 /\ commands w' = commands w ++ [(cfg, 0); (bld, s2)]
                 /\ code = EXIT_FAILURE /\ p = Path.empty)
  \/ (exists name,
        read_project_name w (root </> MANIFEST) = Name name
        /\ commands w' = commands w ++ [(cfg, 0); (bld, 0)]
        /\ code = EXIT_SUCCESS
        /\ p = get_executable_path host target name).
Proof.
  intros H root target build_dir cfg bld. unfold build_project in H.
  fold root in H. fold target in H.
  destruct (Path.is_empty root).
  { injection H as <- <- <-. left. now repeat split. }
  destruct (read_project_name w (root </> MANIFEST)) as [name|[|]] eqn:Hname.
  2,3: injection H as <- <- <-; left; now repeat split.
  destruct (fs_exists w (root </> "src")); cbn [negb] in H.
  2:{ injection H as <- <- <-. left. now repeat split. }
  unfold try_block, bind in H.
  destruct (mkdir_p target w) as [o1 w1] eqn:E1.
  apply mkdir_p_inv in E1 as [C1 [->|[e ->]]].
  2:{ injection H as <- <- <-. left. now repeat split. }
  destruct (ensure_build_description root name w1) as [o2 w2] eqn:E2.
  apply ensure_inv in E2 as [C2 [->| ->]].
  2:{ injection H as <- <- <-. left. repeat split. congruence. }
  destruct (configure_and_build host toolchain (build_mode_of release)
              root target name w2) as [o3 w3] eqn:E3.
  apply configure_and_build_trace in E3. fold build_dir cfg bld in E3.
  rewrite C2, C1 in E3.
  destruct E3 as [[C3 [e ->]]|[(s1 & Hs1 & C3 & ->)|[(s2 & Hs2 & C3 & ->)|[C3 ->]]]];
    injection H as <- <- <-.
  - left. now repeat split.
  - right. left. exists s1. now repeat split.
  - right. right. left. exists s2. now repeat split.
  - right. right. right. exists name. now repeat split.
Qed.

End OrchestratorFacts.

Section OrchestratorTamper.

Variable host : platform.
Variable toolchain : string -> gmap location node -> Z * gmap location node.
Variable what : path -> string.

Lemma tamper_other (at_cmd cmd : string)
    (g : gmap location node -> gmap location node) (t : gmap location node) :
  cmd <> at_cmd -> tamper toolchain at_cmd g cmd t = toolchain cmd t.
Proof.
  intros H. unfold tamper. destruct (toolchain cmd t) as [s t'].
  apply String.eqb_neq in H. now rewrite H.
Qed.

Lemma tamper_at (at_cmd : string)
    (g : gmap location node -> gmap location node) (t : gmap location node) :
  tamper toolchain at_cmd g at_cmd t
  = (fst (toolchain at_cmd t), g (snd (toolchain at_cmd t))).
Proof.
  unfold tamper. destruct (toolchain at_cmd t) as [s t'].
  now rewrite String.eqb_refl.
Qed.

(** A successful run stays what it is when the tree the build command
    leaves is replaced by any other. *)
Lemma build_project_tamper (release : bool) (w w' : World) (p : path)
    (g : gmap location node -> gmap location node) :
  build_project host toolchain what release w = ((EXIT_SUCCESS, p), w') ->
  let root := locate_root w (current_path w) in
  let target := root </> "target" </> target_subdir_of release in
  let bld := cmake_build_cmd host (build_mode_of release) (target </> "build") in
  build_project host (tamper toolchain bld g) what release w
  = ((EXIT_SUCCESS, p), with_tree (g (tree w')) w').
Proof.
  intros H root target bld. unfold build_project in H |- *.
  fold root in H |- *. fold target in H |- *.
  destruct (Path.is_empty root); [not_a_success H|].
  destruct (read_project_name w (root </> MANIFEST)) as [name|[|]];
    [|not_a_success H|not_a_success H].
  destruct (fs_exists w (root </> "src")); cbn [negb] in H |- *;
    [|not_a_success H].
  unfold try_block, bind in H |- *.
  destruct (mkdir_p target w) as [o1 w1] eqn:E1.
  apply mkdir_p_inv in E1 as (_ & [->|[e ->]]); [|not_a_success H].
  destruct (ensure_build_description root name w1) as [o2 w2] eqn:E2.
  apply ensure_inv in E2 as (_ & [->| ->]); [|not_a_success H].
  unfold configure_and_build, bind in H |- *. fold bld in H |- *.
  set (cfg := cmake_configure_cmd host (build_mode_of release) root
                (target </> "build")) in *.
  destruct (mkdir_p (target </> "build") w2) as [o3 w3] eqn:E3.
  apply mkdir_p_inv in E3 as (_ & [->|[e ->]]); [|not_a_success H].
  unfold system_, std_system in H |- *.
  rewrite tamper_other
    by apply (commands_differ host (build_mode_of release) root (target </> "build")).
  destruct (toolchain cfg (tree w3)) as [s1 t1].
  destruct (s1 =? 0); cbn [negb] in H |- *; [|not_a_success H].
  cbn [tree] in H |- *. rewrite tamper_at.
  destruct (toolchain bld t1) as [s2 t2]. cbn [fst snd].
  destruct (s2 =? 0); cbn [negb] in H |- *; [|not_a_success H].
  unfold return_ in H |- *. injection H as <- <-. reflexivity.
Qed.

End OrchestratorTamper.

Section OrchestratorClaims.

Variable host : platform.
Variable toolchain : string -> gmap location node -> Z * gmap location node.
Variable what : path -> string.

(** C7. The commands a call of [build_project] issues tell its result.
    A configure invocation that exits nonzero is the last command: no
    build invocation follows, and the call fails with the empty path.  A
    build invocation is only issued after a configure invocation that
    exited 0, and when it exits nonzero the call fails with the empty
    path.  The call succeeds, and then returns the artifact path, exactly
    when both invocations were issued and both exited 0. *)
Theorem toolchain_short_circuit (release : bool) (w w' : World) (code : Z)
    (p : path) :
  build_project host toolchain what release w = ((code, p), w') ->
  let root := locate_root w (current_path w) in
  let target := root </> "target" </> target_subdir_of release in
  let build_dir := target </> "build" in
  let cfg := cmake_configure_cmd host (build_mode_of release) root build_dir in
  let bld := cmake_build_cmd host (build_mode_of release) build_dir in
  exists issued,
    commands w' = commands w ++ issued
    /\ (forall s1, In (cfg, s1) issued -> s1 <> 0 ->
          (forall s2, ~ In (bld, s2) issued)
          /\ code = EXIT_FAILURE /\ p = Path.empty)
    /\ (forall s2, In (bld, s2) issued ->
          In (cfg, 0) issued
          /\ (s2 <> 0 -> code = EXIT_FAILURE /\ p = Path.empty))
    /\ (code = EXIT_SUCCESS <-> issued = [(cfg, 0); (bld, 0)])
    /\ (code = EXIT_SUCCESS ->
          exists name, read_project_name w (root </> MANIFEST) = Name name
                       /\ p = get_executable_path host target name)
    /\ (code <> EXIT_SUCCESS -> code = EXIT_FAILURE /\ p = Path.empty).
Proof.
  intros H root target build_dir cfg bld.
  pose proof (commands_differ host (build_mode_of release) root build_dir)
    as Hdiff. fold cfg bld in Hdiff.
  apply build_project_trace in H. fold root target build_dir cfg bld in H.
  destruct H as [(C & -> & ->)
                |[(s1 & Hs1 & C & -> & ->)
                 |[(s2 & Hs2 & C & -> & ->)
                  |(name & Hname & C & -> & ->)]]].
  - exists []. rewrite List.app_nil_r. split; [exact C|]. trace_case.
  - exists [(cfg, s1)]. split; [exact C|]. trace_case.
  - exists [(cfg, 0); (bld, s2)]. split; [exact C|]. trace_case.
  - exists [(cfg, 0); (bld, 0)]. split; [exact C|]. trace_case.
    now exists name.
Qed.

(** C8. A call of [build_project] that succeeds returns the artifact path
    made from the target directory and the name read from the manifest, and
    it does so without looking for the artifact: the call succeeds whenever
    both invocations exited 0, and a successful call stays successful, with
    the same path, when the tree left by the build command is replaced by
    any other, one without the artifact included.  After a success with the
    artifact absent, the run handler prints an error, runs nothing and
    fails, while the build handler prints a warning and succeeds. *)
Theorem artifact_existence_policy (release : bool) (args : list string)
    (w : World) :
  (forall w0 p w',
      build_project host toolchain what release w0 = ((EXIT_SUCCESS, p), w') ->
      let root := locate_root w0 (current_path w0) in
      let target := root </> "target" </> target_subdir_of release in
      let bld :=
        cmake_build_cmd host (build_mode_of release) (target </> "build") in
      (exists name,
          read_project_name w0 (root </> MANIFEST) = Name name
          /\ p = get_executable_path host target name)
      /\ (forall g,
            build_project host (tamper toolchain bld g) what release w0
            = ((EXIT_SUCCESS, p), with_tree (g (tree w')) w')))
  /\ (forall w0 code p w',
        build_project host toolchain what release w0 = ((code, p), w') ->
        (exists cfg bld, commands w' = commands w0 ++ [(cfg, 0); (bld, 0)]) ->
        code = EXIT_SUCCESS)
  /\ (forall p w',
        build_project host toolchain what release
          (print ("Compiling " +:+ target_subdir_of release +:+ "...\n") w)
        = ((EXIT_SUCCESS, p), w') ->
        fs_exists w' p = false ->
        handle_run_command host toolchain what release args w
        = (EXIT_FAILURE,
           print ("Error: Executable not found at " +:+ Path.to_string p +:+ "\n") w'))
  /\ (forall p w',
        build_project host toolchain what release
          (print "Compiling...\n" (print "Configuring project...\n" w))
        = ((EXIT_SUCCESS, p), w') ->
        fs_exists w' p = false ->
        handle_build_command host toolchain what release w
        = (EXIT_SUCCESS,
           print "Warning: Executable not found at expected location\n" w')).
Proof.
  split; [|split; [|split]].
  - intros w0 p w' H root target bld. split.
    + pose proof (build_project_trace _ _ _ _ _ _ _ _ H) as T.
      destruct T as [(_ & E & _)
                    |[(s1 & _ & _ & E & _)
                     |[(s2 & _ & _ & E & _)
                      |(name & Hname & _ & _ & ->)]]];
        try discriminate E.
      now exists name.
    + intros g. now apply build_project_tamper.
  - intros w0 code p w' H (cfg & bld & C).
    apply build_project_trace in H.
    destruct H as [(C' & _)
                  |[(s1 & _ & C' & _)
                   |[(s2 & Hs2 & C' & _)
                    |(name & _ & _ & -> & _)]]].
    + rewrite C' in C. rewrite <- (List.app_nil_r (commands w0)) in C at 1.
      apply app_inv_head in C. discriminate.
    + rewrite C' in C. apply app_inv_head in C. discriminate.
    + rewrite C' in C. apply app_inv_head in C. congruence.
    + reflexivity.
  - intros p w' H Habsent. unfold handle_run_command.
    rewrite H. cbn [negb Z.eqb EXIT_SUCCESS]. now rewrite Habsent.
  - intros p w' H Habsent. unfold handle_build_command.
    rewrite H. cbn [negb Z.eqb EXIT_SUCCESS]. now rewrite Habsent.
Qed.

End OrchestratorClaims.

Lemma toolchain_short_circuit_witness :
  exists issued,
    commands (snd (build_project Posix (scripted 0 3) plain_what false
                     (demo_world (sail_toml_content "demo"))))
    = [] ++ issued
    /\ fst (build_project Posix (scripted 0 3) plain_what false
              (demo_world (sail_toml_content "demo")))
       = (EXIT_FAILURE, Path.empty).
Proof.
  pose (r := build_project Posix (scripted 0 3) plain_what false
               (demo_world (sail_toml_content "demo"))).
  assert (H : build_project Posix (scripted 0 3) plain_what false
                (demo_world (sail_toml_content "demo"))
              = ((fst (fst r), snd (fst r)), snd r))
    by (vm_compute; reflexivity).
  destruct (toolchain_short_circuit Posix (scripted 0 3) plain_what false
              _ _ _ _ H) as (issued & C & _).
  exists issued. split; [exact C|]. vm_compute. reflexivity.
Defined.

Lemma artifact_existence_policy_witness :
  fst (handle_run_command Posix (scripted 0 0) plain_what false []
         (demo_world (sail_toml_content "demo"))) = EXIT_FAILURE
  /\ fst (handle_build_command Posix (scripted 0 0) plain_what false
            (demo_world (sail_toml_content "demo"))) = EXIT_SUCCESS
  /\ fst (build_project Posix
            (tamper (producing ["w"; "demo"; "target"; "debug"; "demo"])
               "cmake --build /w/demo/target/debug/build --config Debug"
               (delete ["w"; "demo"; "target"; "debug"; "demo"]))
            plain_what false (demo_world (sail_toml_content "demo")))
     = (EXIT_SUCCESS, Path.mk true ["w"; "demo"; "target"; "debug"; "demo"])
  /\ fst (fst (build_project Posix (scripted 0 0) plain_what false
                 (demo_world (sail_toml_content "demo")))) = EXIT_SUCCESS.
Proof.
  destruct (artifact_existence_policy Posix (scripted 0 0) plain_what false []
              (demo_world (sail_toml_content "demo")))
    as (_ & Hzero & Hrun & Hbuild).
  split; [|split; [|split]].
  - pose (r := build_project Posix (scripted 0 0) plain_what false
                 (print "Compiling debug...\n" (demo_world (sail_toml_content "demo")))).
    rewrite (Hrun (snd (fst r)) (snd r)); [reflexivity | | ];
      vm_compute; reflexivity.
  - pose (r := build_project Posix (scripted 0 0) plain_what false
                 (print "Compiling...\n"
                    (print "Configuring project...\n"
                       (demo_world (sail_toml_content "demo"))))).
    rewrite (Hbuild (snd (fst r)) (snd r)); [reflexivity | | ];
      vm_compute; reflexivity.
  - pose (r := build_project Posix
                 (producing ["w"; "demo"; "target"; "debug"; "demo"])
                 plain_what false (demo_world (sail_toml_content "demo"))).
    destruct (artifact_existence_policy Posix
                (producing ["w"; "demo"; "target"; "debug"; "demo"])
                plain_what false [] (demo_world (sail_toml_content "demo")))
      as (Hok & _).
    assert (H : build_project Posix
                  (producing ["w"; "demo"; "target"; "debug"; "demo"])
                  plain_what false (demo_world (sail_toml_content "demo"))
                = ((EXIT_SUCCESS, snd (fst r)), snd r))
      by (vm_compute; reflexivity).
    destruct (Hok _ _ _ H) as (_ & Ht).
    specialize (Ht (delete ["w"; "demo"; "target"; "debug"; "demo"])).
    apply (f_equal fst) in Ht. exact Ht.
  - pose (r := build_project Posix (scripted 0 0) plain_what false
                 (demo_world (sail_toml_content "demo"))).
    apply (Hzero (demo_world (sail_toml_content "demo")) (fst (fst r))
             (snd (fst r)) (snd r)); [vm_compute; reflexivity|].
    exists "cmake -DCMAKE_BUILD_TYPE=Debug -S /w/demo -B /w/demo/target/debug/build",
           "cmake --build /w/demo/target/debug/build --config Debug".
    vm_compute. reflexivity.
Defined.

(** ** The scenarios of the specification, run on the model *)

(** No manifest anywhere: the build reports it and fails. *)
Example scenario_project_not_found :
  let '(code, w') := handle_build_command Posix (scripted 0 0) plain_what false bare_world in
  code = EXIT_FAILURE
  /\ commands w' = []
  /\ output w' =
     ["Configuring project...\n"; "Compiling...\n";
      "Error: Sail.toml not found in current directory or any parent directory. Run 'sail init' first.\n"].
Proof. vm_compute. repeat split. Qed.

(** A fresh project in debug mode: the build description is generated, the
    two commands are issued, and the artifact path is under [target/debug]. *)
Example scenario_debug_build :
  let '((code, p), w') :=
    build_project Posix (scripted 0 0) plain_what false
      (demo_world (sail_toml_content "demo")) in
  code = EXIT_SUCCESS
  /\ Path.to_string p = "/w/demo/target/debug/demo"
  /\ read_file w' (demo_root </> BUILD_DESCRIPTION) = Some (cmake_content "demo")
  /\ fs_exists w' (demo_root </> "target" </> "debug" </> "build") = true
  /\ map fst (commands w') =
     ["cmake -DCMAKE_BUILD_TYPE=Debug -S /w/demo -B /w/demo/target/debug/build";
      "cmake --build /w/demo/target/debug/build --config Debug"].
Proof. vm_compute. repeat split. Qed.

(** The same project when the build step exits nonzero. *)
Example scenario_build_step_fails :
  let '((code, p), w') :=
    build_project Posix (scripted 0 2) plain_what false
      (demo_world (sail_toml_content "demo")) in
  code = EXIT_FAILURE /\ p = Path.empty
  /\ output w' = ["Error: Build failed\n"].
Proof. vm_compute. repeat split. Qed.

(** [run --release] after a build that left no artifact, and after one that
    left it. *)
Example scenario_run_release :
  fst (handle_run_command Posix (scripted 0 0) plain_what true []
         (demo_world (sail_toml_content "demo"))) = EXIT_FAILURE
  /\ map fst (commands (snd
        (handle_run_command Posix
           (producing ["w"; "demo"; "target"; "release"; "demo"]) plain_what
           true ["a b"] (demo_world (sail_toml_content "demo")))))
     = ["cmake -DCMAKE_BUILD_TYPE=Release -S /w/demo -B /w/demo/target/release/build";
        "cmake --build /w/demo/target/release/build --config Release";
        "/w/demo/target/release/demo a\ b"].
Proof. vm_compute. repeat split. Qed.

(** [init] in a directory writes a manifest that is read back as the name
    of that directory. *)
Example scenario_init_then_read :
  let '(code, w') := handle_init_command bare_world in
  code = EXIT_SUCCESS
  /\ read_project_name w' (current_path w' </> MANIFEST) = Name "fresh"
  /\ locate_root w' (current_path w') = Path.mk true ["w"; "fresh"].
Proof. vm_compute. repeat split. Qed.

(** * Further properties of the commands *)

(** ** More about the project locator *)

Lemma inspected_inv (r : bool) (cs : list string) (p : path) :
  In p (inspected (Path.mk r cs)) ->
  Path.has_root p = r /\ Path.names p <> []
  /\ exists below, cs = Path.names p ++ below.
Proof.
  induction cs as [|x xs IH] using rev_ind; [intros []|].
  rewrite inspected_snoc. intros [<-|Hin].
  - simpl. repeat split; [now destruct xs|]. exists []. now rewrite List.app_nil_r.
  - destruct (IH Hin) as (Hr & Hne & below & E). repeat split; [exact Hr|exact Hne|].
    exists (below ++ [x]). rewrite E at 1. now rewrite <- List.app_assoc.
Qed.

Lemma locate_root_at_project (w : World) (r : bool) (cs : list string) :
  cs <> [] -> has_manifest w (Path.mk r cs) = true ->
  locate_root w (Path.mk r cs) = Path.mk r cs.
Proof.
  intros Hne Hm. rewrite locate_root_nearest.
  destruct cs as [|x xs _] using rev_ind; [congruence|].
  rewrite inspected_snoc. cbn [List.find]. now rewrite Hm.
Qed.

(** X1. From any directory below a project root, with no manifest in the
    directories passed on the way up, the locator answers with that
    root. *)
Theorem locate_root_from_descendant (w : World) (r : bool)
    (root_names below : list string) :
  root_names <> [] ->
  has_manifest w (Path.mk r root_names) = true ->
  (forall pre suf, below = pre ++ suf -> pre <> [] ->
     has_manifest w (Path.mk r (root_names ++ pre)) = false) ->
  locate_root w (Path.mk r (root_names ++ below)) = Path.mk r root_names.
Proof.
  intros Hne Hroot. induction below as [|x b IH] using rev_ind; intros Hnone.
  - rewrite List.app_nil_r. now apply locate_root_at_project.
  - rewrite locate_root_nearest, List.app_assoc, inspected_snoc.
    cbn [List.find]. rewrite <- List.app_assoc.
    rewrite (Hnone (b ++ [x]) []) by (rewrite ?List.app_nil_r; auto; now destruct b).
    rewrite <- locate_root_nearest. apply IH.
    intros pre suf -> Hpre. apply (Hnone pre (suf ++ [x])); [|exact Hpre].
    now rewrite List.app_assoc.
Qed.

Lemma locate_root_from_descendant_witness :
  locate_root (demo_world (sail_toml_content "demo"))
    (Path.mk true (["w"; "demo"] ++ ["src"]))
  = Path.mk true ["w"; "demo"].
Proof.
  apply locate_root_from_descendant.
  - discriminate.
  - reflexivity.
  - intros pre suf E Hpre. destruct pre as [|a [|b pre]]; [congruence| |].
    + injection E as <- _. reflexivity.
    + discriminate E.
Defined.

(** X2. Whatever the locator returns, if it is not the empty path, is a
    directory on the way from the root to the start that has names, keeps
    the root of the start, holds a manifest, and is its own project root. *)
Theorem locate_root_sound (w : World) (start_dir p : path) :
  locate_root w start_dir = p -> p <> Path.empty ->
  has_manifest w p = true
  /\ Path.has_root p = Path.has_root start_dir
  /\ Path.names p <> []
  /\ (exists below, Path.names start_dir = Path.names p ++ below)
  /\ locate_root w p = p.
Proof.
  rewrite locate_root_nearest. intros E Hne.
  destruct (List.find (has_manifest w) (inspected start_dir)) as [q|] eqn:F;
    simpl in E; [subst q|congruence].
  apply find_some in F as [Hin Hm]. destruct start_dir as [r cs].
  destruct (inspected_inv r cs p Hin) as (Hr & Hn & Hb).
  repeat split; [exact Hm | exact Hr | exact Hn | exact Hb |].
  destruct p as [r' ns]. apply locate_root_at_project; assumption.
Qed.

Lemma locate_root_sound_witness :
  has_manifest (demo_world (sail_toml_content "demo")) demo_root = true
  /\ locate_root (demo_world (sail_toml_content "demo")) demo_root = demo_root.
Proof.
  destruct (locate_root_sound (demo_world (sail_toml_content "demo"))
              (current_path (demo_world (sail_toml_content "demo"))) demo_root)
    as (H1 & _ & _ & _ & H5); [reflexivity | discriminate |].
  exact (conj H1 H5).
Defined.

(** ** More about the manifest reader *)

Lemma getlines_from_no_newline (s cur : string) :
  has_char newline cur = false ->
  Forall (fun l => has_char newline l = false) (getlines_from cur s).
Proof.
  revert cur. induction s as [|c s IH]; intros cur Hcur; simpl.
  - destruct cur; constructor; [exact Hcur | constructor].
  - destruct (Ascii.eqb c newline) eqn:E.
    + constructor; [exact Hcur | now apply IH].
    + apply IH. rewrite has_char_app, Hcur. simpl. now rewrite E.
Qed.

(** What an accepted line looks like, and what is taken from it. *)
Lemma scan_line_inv (line v : string) :
  fits line -> scan_line line = Some v ->
  contains MARKER line
  /\ has_char dquote v = false
  /\ exists a b, line = a +:+ String dquote (v +:+ String dquote b)
                 /\ has_char dquote a = false.
Proof.
  intros Hfit Hs.
  assert (Hc : closed_marker_line line).
  { apply (scan_line_accepts line Hfit). now exists v. }
  destruct Hc as [Hm H2]. split; [exact Hm|].
  destruct (closed_line_split line H2) as (a & v' & b & E & Ha & Hv).
  subst line. rewrite (scan_line_closed a v' b Hfit Hm Ha Hv) in Hs.
  injection Hs as <-. split; [exact Hv|]. now exists a, b.
Qed.

Lemma scan_lines_origin (lines : list string) (v : string) :
  scan_lines lines EmptyString = v -> v <> EmptyString ->
  exists l, In l lines /\ scan_line l = Some v.
Proof.
  induction lines as [|l lines IH]; simpl; intros E Hne; [congruence|].
  destruct (scan_line l) as [n|] eqn:El.
  - subst n. exists l. auto.
  - destruct (IH E Hne) as (l' & Hin & Hl'). exists l'. auto.
Qed.

(** X3. A project name that the reader hands out is never empty, holds no
    double quote and no line feed, and is the text between two double
    quotes on a line of the manifest that holds the marker. *)
Theorem read_project_name_wellformed (w : World) (manifest_path : path)
    (content name : string) :
  read_file w manifest_path = Some content ->
  Forall fits (getlines content) ->
  read_project_name w manifest_path = Name name ->
  name <> EmptyString
  /\ has_char dquote name = false
  /\ has_char newline name = false
  /\ exists l a b,
       In l (getlines content) /\ contains MARKER l
       /\ l = a +:+ str dquote +:+ name +:+ str dquote +:+ b.
Proof.
  intros Hread Hfit Hname.
  rewrite (read_project_name_parse _ _ _ Hread) in Hname.
  destruct (StdString.empty (parse_project_name content)) eqn:E; [discriminate|].
  injection Hname as Hname.
  assert (Hne : name <> EmptyString) by (intros ->; now rewrite Hname in E).
  destruct (scan_lines_origin _ _ Hname Hne) as (l & Hin & Hl).
  rewrite List.Forall_forall in Hfit.
  destruct (scan_line_inv l name (Hfit l Hin) Hl) as (Hm & Hq & a & b & El & _).
  assert (Hnl : has_char newline l = false).
  { pose proof (getlines_from_no_newline content EmptyString eq_refl) as H.
    rewrite List.Forall_forall in H. now apply H. }
  repeat split; [exact Hne | exact Hq | |].
  - rewrite El in Hnl. rewrite has_char_app in Hnl.
    apply orb_false_iff in Hnl as [_ Hnl]. simpl in Hnl.
    rewrite has_char_app in Hnl. now apply orb_false_iff in Hnl as [Hnl _].
  - exists l, a, b. repeat split; [exact Hin | exact Hm | exact El].
Qed.

Lemma read_project_name_wellformed_witness :
  "demo" <> EmptyString /\ has_char dquote "demo" = false.
Proof.
  assert (Hfit : Forall fits (getlines (sail_toml_content "demo"))).
  { vm_compute getlines.
    repeat constructor; unfold fits; vm_compute; discriminate. }
  destruct (read_project_name_wellformed
              (demo_world (sail_toml_content "demo")) demo_manifest_path
              (sail_toml_content "demo") "demo" eq_refl Hfit eq_refl)
    as (H1 & H2 & _).
  exact (conj H1 H2).
Defined.

(** ** More about [quote_path] *)

Lemma escape_spaces_head (s : string) (rest : string) :
  escape_spaces s <> String space rest.
Proof.
  destruct s as [|c s]; simpl; [discriminate|].
  destruct (Ascii.eqb_spec c space) as [->|Hc]; [discriminate|].
  intros E. injection E as E _. contradiction.
Qed.

Lemma escape_spaces_inj (s1 s2 : string) :
  escape_spaces s1 = escape_spaces s2 -> s1 = s2.
Proof.
  revert s2. induction s1 as [|c1 s1 IH]; intros [|c2 s2]; simpl.
  - reflexivity.
  - destruct (Ascii.eqb c2 space); discriminate.
  - destruct (Ascii.eqb c1 space); discriminate.
  - destruct (Ascii.eqb_spec c1 space) as [->|H1];
      destruct (Ascii.eqb_spec c2 space) as [->|H2]; intros E.
    + injection E as E. f_equal. now apply IH.
    + injection E as <- E. symmetry in E. now apply escape_spaces_head in E.
    + injection E as -> E. now apply escape_spaces_head in E.
    + injection E as -> E. f_equal. now apply IH.
Qed.

Lemma append_char_inj (a b : string) (c : ascii) :
  a +:+ str c = b +:+ str c -> a = b.
Proof.
  revert b. induction a as [|x a IH]; intros [|y b]; simpl; intros E.
  - reflexivity.
  - injection E as _ E. destruct b; discriminate.
  - injection E as _ E. destruct a; discriminate.
  - injection E as -> E. f_equal. now apply IH.
Qed.

Lemma quote_path_posix (p : string) :
  fits (escape_spaces p) -> quote_path Posix p = escape_spaces p.
Proof.
  intros Hfit. unfold quote_path.
  apply (quote_loop_invariant (S (String.length p)) p EmptyString); [lia|].
  exact Hfit.
Qed.

(** X4. Quoting never maps two paths to the same text, on either host. *)
Theorem quote_path_injective (host : platform) (p1 p2 : string) :
  fits (escape_spaces p1) -> fits (escape_spaces p2) ->
  quote_path host p1 = quote_path host p2 -> p1 = p2.
Proof.
  intros H1 H2. destruct host.
  - rewrite !quote_path_posix by assumption. apply escape_spaces_inj.
  - unfold quote_path. simpl. intros E. injection E as E.
    now apply append_char_inj in E.
Qed.

Lemma quote_path_injective_witness :
  quote_path Posix "a b" = quote_path Posix ("a" +:+ " b")
  /\ "a b" = "a" +:+ " b".
Proof.
  split; [reflexivity|].
  apply (quote_path_injective Posix "a b" ("a" +:+ " b")).
  - unfold fits. vm_compute. discriminate.
  - unfold fits. vm_compute. discriminate.
  - reflexivity.
Defined.

Lemma escape_spaces_size_exact (p : string) :
  size (escape_spaces p) = size p + Z.of_nat (count_char space p).
Proof.
  unfold size. induction p as [|c p IH]; simpl; [reflexivity|].
  destruct (Ascii.eqb c space); simpl String.length; lia.
Qed.

(** X5. On a Unix-like host the quoted text is longer than the path by the
    number of its spaces, so quoting a path with a space a second time
    changes it again; on Windows it is longer by two. *)
Theorem quote_path_size (p : string) :
  fits (escape_spaces (escape_spaces p)) ->
  size (quote_path Posix p) = size p + Z.of_nat (count_char space p)
  /\ size (quote_path Windows p) = size p + 2
  /\ (has_char space p = true ->
      quote_path Posix (quote_path Posix p) <> quote_path Posix p).
Proof.
  intros Hfit2.
  assert (Hfit : fits (escape_spaces p)).
  { unfold fits in *. pose proof (escape_spaces_size (escape_spaces p)). lia. }
  rewrite (quote_path_posix p Hfit). split; [apply escape_spaces_size_exact|].
  split.
  - unfold quote_path. rewrite !size_app. change (size (str dquote)) with 1. lia.
  - intros Hsp E. rewrite (quote_path_posix _ Hfit2) in E.
    apply escape_spaces_inj in E.
    apply (f_equal size) in E. rewrite escape_spaces_size_exact in E.
    assert (count_char space p <> O).
    { intros H0. apply count_char_zero in H0. congruence. }
    lia.
Qed.

Lemma quote_path_size_witness :
  size (quote_path Posix "my project dir") = size "my project dir" + 2.
Proof.
  refine (proj1 (quote_path_size "my project dir" _)).
  unfold fits. vm_compute. discriminate.
Defined.

(** ** More about the orchestrator *)

Lemma mkdirs_keeps (no : gset location) (todo : location) :
  forall t done t' loc n,
    mkdirs no t done todo = Some t' -> t !! loc = Some n -> t' !! loc = Some n.
Proof.
  induction todo as [|x todo IH]; intros t done t' loc n H Hloc; simpl in H.
  - now injection H as <-.
  - destruct (t !! (done ++ [x])) as [[c|]|] eqn:E; [discriminate| |].
    + eapply IH; eauto.
    + destruct (bool_decide (done ++ [x] ∈ no)); [discriminate|].
      eapply IH; [exact H|]. rewrite lookup_insert_ne; [exact Hloc|].
      intros <-. congruence.
Qed.

Lemma mkdirs_makes (no : gset location) (todo : location) :
  forall t done t',
    mkdirs no t done todo = Some t' -> todo <> [] ->
    t' !! (done ++ todo) = Some Dir.
Proof.
  induction todo as [|x todo IH]; intros t done t' H Hne; [congruence|].
  simpl in H.
  assert (Hstep : forall t1, t1 !! (done ++ [x]) = Some Dir ->
                    mkdirs no t1 (done ++ [x]) todo = Some t' ->
                    t' !! (done ++ x :: todo) = Some Dir).
  { intros t1 Hd Hrest. destruct todo as [|y todo].
    - simpl in Hrest. now injection Hrest as <-.
    - replace (done ++ x :: y :: todo) with ((done ++ [x]) ++ y :: todo)
        by now rewrite <- List.app_assoc.
      eapply IH; [exact Hrest | discriminate]. }
  destruct (t !! (done ++ [x])) as [[c|]|] eqn:E; [discriminate| |].
  - now apply (Hstep t).
  - destruct (bool_decide (done ++ [x] ∈ no)); [discriminate|].
    apply (Hstep (<[done ++ [x] := Dir]> t)); [apply lookup_insert_eq | exact H].
Qed.

Section OrchestratorMore.

Variable host : platform.
Variable toolchain : string -> gmap location node -> Z * gmap location node.
Variable what : path -> string.

(** What a step leaves of the output, and of an entry of the tree. *)
Lemma mkdir_p_frame (p : path) (w w' : World) (o : outcome unit) :
  mkdir_p p w = (o, w') ->
  output w' = output w /\ cwd w' = cwd w
  /\ (forall loc n, tree w !! loc = Some n -> tree w' !! loc = Some n)
  /\ ((o = Next tt /\ (resolve w p <> [] -> tree w' !! resolve w p = Some Dir))
      \/ exists e, o = Throw e).
Proof.
  unfold mkdir_p, create_directories.
  destruct (mkdirs (denied w) (tree w) [] (resolve w p)) as [t|] eqn:E;
    intros H; injection H as <- <-; simpl.
  - repeat split.
    + intros loc n. now apply (mkdirs_keeps _ _ _ _ _ _ _ E).
    + left. split; [reflexivity|]. intros Hne.
      now apply (mkdirs_makes _ _ _ [] _ E).
  - repeat split; auto. right. now eexists.
Qed.

Lemma ensure_frame (root : path) (name : string) (w w' : World)
    (o : outcome unit) :
  ensure_build_description root name w = (o, w') ->
  cwd w' = cwd w
  /\ (forall loc n, tree w !! loc = Some n -> tree w' !! loc = Some n)
  /\ ((o = Next tt /\ output w' = output w
       /\ fs_exists w' (root </> BUILD_DESCRIPTION) = true)
      \/ (o = Return (EXIT_FAILURE, Path.empty)
          /\ exists msg, output w' = output w ++ [msg])).
Proof.
  unfold ensure_build_description.
  destruct (fs_exists w (root </> BUILD_DESCRIPTION)) eqn:Hex; cbn [negb].
  - intros H. injection H as <- <-. split; [reflexivity|]. split; [auto|].
    left. auto.
  - destruct (can_open_for_write w _); cbn [negb];
      intros H; injection H as <- <-.
    + split; [reflexivity|]. split.
      * intros loc n Hloc. simpl. rewrite lookup_insert_ne; [exact Hloc|].
        intros <-. unfold fs_exists in Hex.
        apply bool_decide_eq_false_1 in Hex. apply Hex.
        simpl in Hloc. unfold is_Some. eauto.
      * left. repeat split. apply fs_exists_write_file.
    + split; [reflexivity|]. split; [auto|].
      right. split; [reflexivity|]. now eexists.
Qed.

Lemma std_system_frame (cmd : string) (w : World) :
  let '(status, w') := std_system toolchain cmd w in
  output w' = output w /\ cwd w' = cwd w
  /\ (forall loc n, keeps toolchain loc -> tree w !! loc = Some n ->
       tree w' !! loc = Some n).
Proof.
  unfold std_system. destruct (toolchain cmd (tree w)) as [s t] eqn:E.
  simpl. repeat split. intros loc n K Hloc.
  specialize (K cmd (tree w) n Hloc). now rewrite E in K.
Qed.

Lemma configure_and_build_frame (mode : string) (root target : path)
    (name : string) (w w' : World) (o : outcome (Z * path)) :
  configure_and_build host toolchain mode root target name w = (o, w') ->
  cwd w' = cwd w
  /\ (forall loc n, keeps toolchain loc -> tree w !! loc = Some n ->
       tree w' !! loc = Some n)
  /\ (((exists e, o = Throw e) /\ output w' = output w)
      \/ (o = Return (EXIT_FAILURE, Path.empty)
          /\ exists msg, output w' = output w ++ [msg])
      \/ (o = Return (EXIT_SUCCESS, get_executable_path host target name)
          /\ output w' = output w
          /\ (keeps toolchain (resolve w (target </> "build")) ->
              resolve w (target </> "build") <> [] ->
              tree w' !! resolve w (target </> "build") = Some Dir))).
Proof.
  intros H. unfold configure_and_build, bind in H.
  destruct (mkdir_p (target </> "build") w) as [o1 w1] eqn:E1.
  apply mkdir_p_frame in E1 as (O1 & C1 & K1 & [[-> D1]|[e ->]]).
  2:{ injection H as <- <-. repeat split; auto. left. split; [now eexists|auto]. }
  unfold system_ in H.
  pose proof (std_system_frame
                (cmake_configure_cmd host mode root (target </> "build")) w1) as F2.
  destruct (std_system toolchain _ w1) as [s1 w2].
  destruct F2 as (O2 & C2 & K2).
  destruct (Z.eqb_spec s1 0) as [->|Hs1]; cbn [negb] in H.
  - pose proof (std_system_frame
                  (cmake_build_cmd host mode (target </> "build")) w2) as F3.
    destruct (std_system toolchain _ w2) as [s2 w3].
    destruct F3 as (O3 & C3 & K3).
    destruct (Z.eqb_spec s2 0) as [->|Hs2]; cbn [negb] in H;
      injection H as <- <-.
    + split; [congruence|]. split; [auto|].
      right. right. split; [reflexivity|]. split; [congruence|].
      intros K Hne. auto.
    + split; [simpl; congruence|]. split; [simpl; auto|].
      right. left. split; [reflexivity|]. eexists. simpl.
      rewrite O3, O2, O1. reflexivity.
  - injection H as <- <-. split; [simpl; congruence|]. split; [simpl; auto|].
    right. left. split; [reflexivity|]. eexists. simpl.
    rewrite O2, O1. reflexivity.
Qed.

Lemma locate_root_rooted (w : World) :
  Path.is_empty (locate_root w (current_path w)) = false ->
  Path.has_root (locate_root w (current_path w)) = true
  /\ Path.names (locate_root w (current_path w)) <> [].
Proof.
  rewrite locate_root_nearest.
  destruct (List.find (has_manifest w) (inspected (current_path w)))
    as [q|] eqn:F; simpl; [intros _|discriminate].
  apply find_some in F as [Hin _]. unfold current_path in Hin.
  destruct (inspected_inv _ _ _ Hin) as (Hr & Hn & _). auto.
Qed.

Lemma resolve_rooted (w : World) (p : path) :
  Path.has_root p = true -> resolve w p = Path.names p.
Proof. unfold resolve. now intros ->. Qed.

(** Everything a call of [build_project] leaves behind, by outcome. *)
Lemma build_project_frame (release : bool) (w w' : World) (code : Z)
    (p : path) :
  build_project host toolchain what release w = ((code, p), w') ->
  let root := locate_root w (current_path w) in
  let build_loc :=
    Path.names root ++ ["target"; target_subdir_of release; "build"] in
  let cmake_loc := Path.names root ++ [BUILD_DESCRIPTION] in
  cwd w' = cwd w
  /\ (forall loc n, keeps toolchain loc -> tree w !! loc = Some n ->
       tree w' !! loc = Some n)
  /\ ((code = EXIT_SUCCESS /\ output w' = output w
       /\ (keeps toolchain build_loc -> tree w' !! build_loc = Some Dir)
       /\ (keeps toolchain cmake_loc -> is_Some (tree w' !! cmake_loc)))
      \/ (code = EXIT_FAILURE /\ p = Path.empty
          /\ exists msg, output w' = output w ++ [msg])).
Proof.
  intros H root build_loc cmake_loc. unfold build_project in H.
  fold root in H.
  assert (Hfail : forall msg, cwd (print msg w) = cwd w
            /\ (forall loc n, keeps toolchain loc -> tree w !! loc = Some n ->
                  tree (print msg w) !! loc = Some n)
            /\ ((EXIT_FAILURE = EXIT_SUCCESS /\ output (print msg w) = output w
                 /\ (keeps toolchain build_loc ->
                     tree (print msg w) !! build_loc = Some Dir)
                 /\ (keeps toolchain cmake_loc ->
                     is_Some (tree (print msg w) !! cmake_loc)))
                \/ (EXIT_FAILURE = EXIT_FAILURE /\ Path.empty = Path.empty
                    /\ exists m, output (print msg w) = output w ++ [m]))).
  { intros msg. split; [reflexivity|]. split; [auto|]. right.
    repeat split. now eexists. }
  destruct (Path.is_empty root) eqn:Hroot.
  { injection H as <- <- <-. apply Hfail. }
  destruct (locate_root_rooted w Hroot) as [Hr Hn]. fold root in Hr, Hn.
  destruct (read_project_name w (root </> MANIFEST)) as [name|[|]].
  2,3: injection H as <- <- <-; apply Hfail.
  destruct (fs_exists w (root </> "src")); cbn [negb] in H.
  2:{ injection H as <- <- <-. apply Hfail. }
  clear Hfail. unfold try_block, bind in H.
  set (target := root </> "target" </> target_subdir_of release) in *.
  assert (Htarget : Path.has_root target = true
                    /\ Path.names target
                       = Path.names root ++ ["target"; target_subdir_of release]).
  { unfold target. destruct release; simpl; rewrite Hr;
      rewrite <- List.app_assoc; auto. }
  destruct Htarget as [Htr Htn].
  assert (Hbuild : forall v, resolve v (target </> "build") = build_loc).
  { intros v. rewrite resolve_rooted by (simpl; exact Htr).
    unfold build_loc. simpl. rewrite Htn, <- List.app_assoc. reflexivity. }
  assert (Hcmake : forall v, resolve v (root </> BUILD_DESCRIPTION) = cmake_loc).
  { intros v. rewrite resolve_rooted by (simpl; exact Hr). reflexivity. }
  destruct (mkdir_p target w) as [o1 w1] eqn:E1.
  apply mkdir_p_frame in E1 as (O1 & C1 & K1 & [[-> _]|[e ->]]).
  2:{ injection H as <- <- <-. split; [exact C1|]. split; [auto|].
      right. repeat split. eexists. simpl. now rewrite O1. }
  destruct (ensure_build_description root name w1) as [o2 w2] eqn:E2.
  apply ensure_frame in E2
    as (C2 & K2 & [(-> & O2 & X2)|(-> & msg & O2)]).
  2:{ injection H as <- <- <-. split; [congruence|]. split; [auto|].
      right. repeat split. exists msg. now rewrite O2, O1. }
  destruct (configure_and_build host toolchain (build_mode_of release)
              root target name w2) as [o3 w3] eqn:E3.
  apply configure_and_build_frame in E3 as (C3 & K3 & Hout).
  assert (Hkeep : forall loc n, keeps toolchain loc -> tree w !! loc = Some n ->
                    tree w3 !! loc = Some n) by auto.
  destruct Hout as [[[e ->] O3]|[[-> [msg O3]]|(-> & O3 & D3)]];
    injection H as <- <- <-.
  - split; [simpl; congruence|]. split; [exact Hkeep|]. right. repeat split.
    eexists. simpl. now rewrite O3, O2, O1.
  - split; [congruence|]. split; [exact Hkeep|]. right. repeat split.
    exists msg. now rewrite O3, O2, O1.
  - split; [congruence|]. split; [exact Hkeep|]. left.
    split; [reflexivity|]. split; [congruence|]. split.
    + intros K. rewrite Hbuild in D3. apply D3; [exact K|].
      unfold build_loc. now destruct (Path.names root).
    + intros K. unfold fs_exists in X2. apply bool_decide_eq_true_1 in X2.
      rewrite Hcmake in X2. destruct X2 as [n Hn2].
      exists n. now apply K3.
Qed.

Lemma mkdir_p_output (p : path) (w w' : World) (o : outcome unit) :
  mkdir_p p w = (o, w') ->
  output w' = output w /\ (o = Next tt \/ o = Throw p).
Proof.
  unfold mkdir_p, create_directories.
  destruct (mkdirs (denied w) (tree w) [] (resolve w p));
    intros H; injection H as <- <-; auto.
Qed.

Lemma ensure_output (root : path) (name : string) (w w' : World)
    (o : outcome unit) :
  ensure_build_description root name w = (o, w') ->
  (o = Next tt /\ output w' = output w)
  \/ (o = Return (EXIT_FAILURE, Path.empty)
      /\ output w' = output w ++ ["Error: Failed to create CMakeLists.txt\n"]).
Proof.
  unfold ensure_build_description.
  destruct (fs_exists w _); cbn [negb];
    [|destruct (can_open_for_write w _); cbn [negb]];
    intros H; injection H as <- <-; auto.
Qed.

Lemma configure_and_build_output (mode : string) (root target : path)
    (name : string) (w w' : World) (o : outcome (Z * path)) :
  configure_and_build host toolchain mode root target name w = (o, w') ->
  ((exists e, o = Throw e) /\ output w' = output w)
  \/ (o = Return (EXIT_FAILURE, Path.empty)
      /\ exists msg,
           (msg = "Error: CMake configuration failed\n"
            \/ msg = "Error: Build failed\n")
           /\ output w' = output w ++ [msg])
  \/ ((exists q, o = Return (EXIT_SUCCESS, q)) /\ output w' = output w).
Proof.
  intros H. unfold configure_and_build, bind in H.
  destruct (mkdir_p (target </> "build") w) as [o1 w1] eqn:E1.
  apply mkdir_p_output in E1 as (O1 & [->| ->]).
  2:{ injection H as <- <-. left. split; [now eexists|exact O1]. }
  unfold system_, std_system in H.
  destruct (toolchain _ (tree w1)) as [s1 t1].
  destruct (s1 =? 0); cbn [negb] in H.
  - cbn [tree] in H. destruct (toolchain _ t1) as [s2 t2].
    destruct (s2 =? 0); cbn [negb] in H; injection H as <- <-.
    + right. right. split; [now eexists|exact O1].
    + right. left. split; [reflexivity|]. eexists. split; [now right|].
      simpl. now rewrite O1.
  - injection H as <- <-. right. left. split; [reflexivity|].
    eexists. split; [now left|]. simpl. now rewrite O1.
Qed.

(** The result of a call and what it has printed. *)
Lemma build_project_outcomes (release : bool) (w w' : World) (code : Z)
    (p : path) :
  build_project host toolchain what release w = ((code, p), w') ->
  (code = EXIT_SUCCESS /\ output w' = output w)
  \/ (code = EXIT_FAILURE /\ p = Path.empty
      /\ exists msg, build_diagnostic what msg
                     /\ output w' = output w ++ [msg]).
Proof.
  intros H. unfold build_project in H.
  set (root := locate_root w (current_path w)) in *.
  set (target := root </> "target" </> target_subdir_of release) in *.
  assert (Hfail : forall msg v, build_diagnostic what msg ->
            output v = output w ->
            (EXIT_FAILURE = EXIT_SUCCESS /\ output (print msg v) = output w)
            \/ (EXIT_FAILURE = EXIT_FAILURE /\ Path.empty = Path.empty
                /\ exists m, build_diagnostic what m
                             /\ output (print msg v) = output w ++ [m])).
  { intros msg v D O. right. repeat split. exists msg. split; [exact D|].
    simpl. now rewrite O. }
  destruct (Path.is_empty root).
  { injection H as <- <- <-. apply Hfail; [fixed_diagnostic|reflexivity]. }
  destruct (read_project_name w (root </> MANIFEST)) as [name|[|]].
  2,3: injection H as <- <- <-; (apply Hfail; [fixed_diagnostic|reflexivity]).
  destruct (fs_exists w (root </> "src")); cbn [negb] in H.
  2:{ injection H as <- <- <-. apply Hfail; [fixed_diagnostic|reflexivity]. }
  clear Hfail. unfold try_block, bind in H.
  destruct (mkdir_p target w) as [o1 w1] eqn:E1.
  apply mkdir_p_output in E1 as (O1 & [->| ->]).
  2:{ injection H as <- <- <-. right. repeat split. eexists.
      split; [right; now eexists|]. simpl. now rewrite O1. }
  destruct (ensure_build_description root name w1) as [o2 w2] eqn:E2.
  apply ensure_output in E2 as [[-> O2]|[-> O2]].
  2:{ injection H as <- <- <-. right. repeat split.
      exists "Error: Failed to create CMakeLists.txt\n".
      split; [fixed_diagnostic|]. now rewrite O2, O1. }
  destruct (configure_and_build host toolchain (build_mode_of release)
              root target name w2) as [o3 w3] eqn:E3.
  apply configure_and_build_output in E3
    as [[[e ->] O3]|[(-> & msg & Hmsg & O3)|[[q ->] O3]]];
    injection H as <- <- <-.
  - right. repeat split. eexists. split; [right; now eexists|].
    simpl. now rewrite O3, O2, O1.
  - right. repeat split. exists msg. split.
    + destruct Hmsg as [-> | ->]; fixed_diagnostic.
    + now rewrite O3, O2, O1.
  - left. split; [reflexivity|]. now rewrite O3, O2, O1.
Qed.

(** X6. A call of [build_project] that returns with success has printed
    nothing; a call that returns with a failure has printed exactly one
    message, one of its seven fixed texts or the text of the exception its
    [try] block caught, and returns [EXIT_FAILURE] with the empty path.
    A call in which a status query outside the [try] block throws does not
    return.  The messages end as the source writes them, in a backslash
    and the letter n. *)
Theorem build_project_one_diagnostic (release : bool) (w w' : World)
    (code : Z) (p : path) :
  build_project host toolchain what release w = ((code, p), w') ->
  (code = EXIT_SUCCESS /\ output w' = output w)
  \/ (code = EXIT_FAILURE /\ p = Path.empty
      /\ exists msg, build_diagnostic what msg
                     /\ output w' = output w ++ [msg]).
Proof. apply build_project_outcomes. Qed.

(** X7. [build_project] itself removes and overwrites nothing: a file or
    directory that is there before the call, and that the external
    toolchain leaves alone, is there unchanged after it, whether the call
    succeeds or not. *)
Theorem build_project_preserves_entries (release : bool) (w w' : World)
    (result : Z * path) (loc : location) (n : node) :
  build_project host toolchain what release w = (result, w') ->
  keeps toolchain loc ->
  tree w !! loc = Some n ->
  tree w' !! loc = Some n.
Proof.
  destruct result as [code p]. intros H K Hloc.
  apply build_project_frame in H as (_ & Hk & _). now apply Hk.
Qed.

(** X8. After a successful call, with a toolchain that leaves these two
    entries alone, the build directory [target/<mode>/build] of the project
    is a directory and the build description exists. *)
Theorem build_project_leaves_build_tree (release : bool) (w w' : World)
    (p : path) :
  build_project host toolchain what release w = ((EXIT_SUCCESS, p), w') ->
  let root := locate_root w (current_path w) in
  let build_loc :=
    Path.names root ++ ["target"; target_subdir_of release; "build"] in
  let cmake_loc := Path.names root ++ [BUILD_DESCRIPTION] in
  keeps toolchain build_loc -> keeps toolchain cmake_loc ->
  tree w' !! build_loc = Some Dir /\ is_Some (tree w' !! cmake_loc).
Proof.
  intros H root build_loc cmake_loc Kb Kc.
  apply build_project_frame in H as (_ & _ & [(_ & _ & Hb & Hc)|(E & _)]).
  - split; [now apply Hb | now apply Hc].
  - discriminate E.
Qed.

End OrchestratorMore.

Lemma cwd_blind_bind {A B : Type} (m : Op A) (k : A -> Op B) :
  cwd_blind m -> (forall a, cwd_blind (k a)) -> cwd_blind (bind m k).
Proof.
  intros Hm Hk dir w. unfold bind. rewrite Hm.
  destruct (m w) as [[a|r|e] w1]; [apply Hk | reflexivity | reflexivity].
Qed.

Lemma fs_exists_with_cwd (dir : location) (w : World) (p : path) :
  Path.has_root p = true -> fs_exists (with_cwd dir w) p = fs_exists w p.
Proof. intros H. unfold fs_exists, resolve. simpl. now rewrite H. Qed.

Lemma read_file_with_cwd (dir : location) (w : World) (p : path) :
  Path.has_root p = true -> read_file (with_cwd dir w) p = read_file w p.
Proof. intros H. unfold read_file, resolve. simpl. now rewrite H. Qed.

Lemma locate_loop_with_cwd (dir : location) (w : World) (fuel : nat) :
  forall p, Path.has_root p = true ->
    locate_loop fuel (with_cwd dir w) p = locate_loop fuel w p.
Proof.
  induction fuel as [|fuel IH]; intros p Hp; [reflexivity|].
  cbn [locate_loop]. rewrite fs_exists_with_cwd by (simpl; exact Hp).
  rewrite IH by exact Hp. reflexivity.
Qed.

Lemma mkdir_p_cwd_blind (p : path) :
  Path.has_root p = true -> cwd_blind (mkdir_p p).
Proof.
  intros Hp dir w. unfold mkdir_p, create_directories, resolve. simpl.
  rewrite Hp. now destruct (mkdirs (denied w) (tree w) [] (Path.names p)).
Qed.

Lemma say_cwd_blind (msg : string) : cwd_blind (say msg).
Proof. intros dir w. reflexivity. Qed.

Lemma return_cwd_blind {A : Type} (r : Z * path) : cwd_blind (@return_ A r).
Proof. intros dir w. reflexivity. Qed.

Lemma can_open_with_cwd (dir : location) (w : World) (p : path) :
  Path.has_root p = true ->
  can_open_for_write (with_cwd dir w) p = can_open_for_write w p.
Proof. intros H. unfold can_open_for_write, resolve. simpl. now rewrite H. Qed.

Lemma write_file_with_cwd (dir : location) (w : World) (p : path)
    (content : string) :
  Path.has_root p = true ->
  write_file p content (with_cwd dir w) = with_cwd dir (write_file p content w).
Proof. intros H. unfold write_file, resolve, with_tree. simpl. now rewrite H. Qed.

Lemma ensure_cwd_blind (root : path) (name : string) :
  Path.has_root root = true -> cwd_blind (ensure_build_description root name).
Proof.
  intros Hr dir w. unfold ensure_build_description.
  assert (Hp : Path.has_root (root </> BUILD_DESCRIPTION) = true) by exact Hr.
  rewrite (fs_exists_with_cwd dir w _ Hp), (can_open_with_cwd dir w _ Hp).
  rewrite (write_file_with_cwd dir w _ _ Hp).
  destruct (fs_exists w (root </> BUILD_DESCRIPTION)); cbn [negb]; [reflexivity|].
  now destruct (can_open_for_write w (root </> BUILD_DESCRIPTION)).
Qed.

Section CwdBlind.

Variable host : platform.
Variable toolchain : string -> gmap location node -> Z * gmap location node.
Variable what : path -> string.

Lemma system_cwd_blind (cmd : string) : cwd_blind (system_ toolchain cmd).
Proof.
  intros dir w. unfold system_, std_system. simpl.
  now destruct (toolchain cmd (tree w)).
Qed.

Lemma configure_and_build_cwd_blind (mode : string) (root target : path)
    (name : string) :
  Path.has_root target = true ->
  cwd_blind (configure_and_build host toolchain mode root target name).
Proof.
  intros Ht. unfold configure_and_build.
  apply cwd_blind_bind; [now apply mkdir_p_cwd_blind|]. intros _.
  apply cwd_blind_bind; [apply system_cwd_blind|]. intros s1.
  destruct (negb (s1 =? 0)).
  - apply cwd_blind_bind; [apply say_cwd_blind|]. intros _.
    apply return_cwd_blind.
  - apply cwd_blind_bind; [apply system_cwd_blind|]. intros s2.
    destruct (negb (s2 =? 0)); [|apply return_cwd_blind].
    apply cwd_blind_bind; [apply say_cwd_blind|]. intros _.
    apply return_cwd_blind.
Qed.

(** With the same toolchain, the working directory matters to a call
    only through the project root it leads to. *)
Lemma build_project_cwd_blind (release : bool) (w : World)
    (dir : location) :
  locate_root w (Path.mk true dir) = locate_root w (current_path w) ->
  build_project host toolchain what release (with_cwd dir w)
  = let '(result, w') := build_project host toolchain what release w in
    (result, with_cwd dir w').
Proof.
  intros Hsame. unfold build_project.
  assert (Hloc : locate_root (with_cwd dir w) (current_path (with_cwd dir w))
                 = locate_root w (current_path w)).
  { rewrite <- Hsame. unfold locate_root.
    now apply locate_loop_with_cwd. }
  rewrite Hloc. set (root := locate_root w (current_path w)).
  destruct (Path.is_empty root) eqn:Hroot; [reflexivity|].
  destruct (locate_root_rooted w Hroot) as [Hr _]. fold root in Hr.
  assert (Hp : forall s, Path.has_root (root </> s) = true).
  { intros s. unfold Path.append. destruct (Path.has_root (Path.of_string s)) eqn:E;
      [exact E | exact Hr]. }
  unfold read_project_name. rewrite (read_file_with_cwd dir w _ (Hp MANIFEST)).
  destruct (read_file w (root </> MANIFEST)) as [content|]; [|reflexivity].
  destruct (StdString.empty (parse_project_name content)); [reflexivity|].
  rewrite (fs_exists_with_cwd dir w _ (Hp "src")).
  destruct (fs_exists w (root </> "src")); cbn [negb]; [|reflexivity].
  unfold try_block.
  set (target := root </> "target" </> target_subdir_of release).
  assert (Ht : Path.has_root target = true).
  { unfold target, Path.append at 1.
    destruct (Path.has_root (Path.of_string (target_subdir_of release))) eqn:E;
      [exact E | apply Hp]. }
  set (body := (mkdir_p target;;;
             ensure_build_description root (parse_project_name content);;;
             configure_and_build host toolchain (build_mode_of release) root
               target (parse_project_name content))).
  assert (Hblind : cwd_blind body).
  { apply cwd_blind_bind; [now apply mkdir_p_cwd_blind|]. intros _.
    apply cwd_blind_bind; [now apply ensure_cwd_blind|]. intros _.
    now apply configure_and_build_cwd_blind. }
  rewrite Hblind.
  now destruct (body w) as [[r|r|e] w1].
Qed.

End CwdBlind.

Section CwdAware.

Variable host : platform.
Variable toolchain : string -> gmap location node -> Z * gmap location node.
Variable what : path -> string.

(** Only the answers to the two command lines of a run matter to it. *)
Lemma build_project_toolchain_agree (release : bool) (w : World)
    (other : string -> gmap location node -> Z * gmap location node) :
  let root := locate_root w (current_path w) in
  let build_dir := root </> "target" </> target_subdir_of release </> "build" in
  let cfg := cmake_configure_cmd host (build_mode_of release) root build_dir in
  let bld := cmake_build_cmd host (build_mode_of release) build_dir in
  (forall t, other cfg t = toolchain cfg t) ->
  (forall t, other bld t = toolchain bld t) ->
  build_project host other what release w
  = build_project host toolchain what release w.
Proof.
  intros root build_dir cfg bld Hcfg Hbld. unfold build_project.
  fold root.
  destruct (Path.is_empty root); [reflexivity|].
  destruct (read_project_name w (root </> MANIFEST)) as [name|[|]];
    [|reflexivity|reflexivity].
  destruct (fs_exists w (root </> "src")); cbn [negb]; [|reflexivity].
  unfold try_block, bind.
  destruct (mkdir_p _ w) as [[[]|r|e] w1]; [|reflexivity|reflexivity].
  destruct (ensure_build_description root name w1) as [[[]|r|e] w2];
    [|reflexivity|reflexivity].
  unfold configure_and_build, bind. fold build_dir. fold cfg. fold bld.
  destruct (mkdir_p build_dir w2) as [[[]|r|e] w3]; [|reflexivity|reflexivity].
  unfold system_, std_system. rewrite Hcfg.
  destruct (toolchain cfg (tree w3)) as [s1 t1].
  destruct (negb (s1 =? 0)); [reflexivity|].
  cbn [tree]. rewrite Hbld. reflexivity.
Qed.

(** X9. [build_project] itself looks at the working directory only to find
    the project root.  Take two directories that lead to the same root, and
    let the configure and the build command line answer the same way, in
    status and in the tree they leave, when started from either: then a
    call that returns gives the same result from both, issues the same
    commands, prints the same messages and leaves the same tree.  Here
    [toolchain] stands for the external programs as started from the
    working directory of [w], and [toolchain_there] for the same programs
    as started from [dir]. *)
Theorem build_project_same_from_any_directory (release : bool) (w : World)
    (dir : location)
    (toolchain_there : string -> gmap location node -> Z * gmap location node) :
  locate_root w (Path.mk true dir) = locate_root w (current_path w) ->
  let root := locate_root w (current_path w) in
  let build_dir := root </> "target" </> target_subdir_of release </> "build" in
  let cfg := cmake_configure_cmd host (build_mode_of release) root build_dir in
  let bld := cmake_build_cmd host (build_mode_of release) build_dir in
  (forall t, toolchain_there cfg t = toolchain cfg t) ->
  (forall t, toolchain_there bld t = toolchain bld t) ->
  build_project host toolchain_there what release (with_cwd dir w)
  = let '(result, w') := build_project host toolchain what release w in
    (result, with_cwd dir w').
Proof.
  intros Hsame root build_dir cfg bld Hcfg Hbld.
  rewrite (build_project_cwd_blind host toolchain_there what
             release w dir Hsame).
  now rewrite (build_project_toolchain_agree release w toolchain_there Hcfg Hbld).
Qed.

End CwdAware.

Lemma build_project_same_from_any_directory_witness :
  build_project Posix
    (fun cmd t => if starts_with "cmake" cmd then (0, t) else (9, t))
    plain_what false
    (with_cwd ["w"; "demo"] (demo_world (sail_toml_content "demo")))
  = let '(result, w') :=
      build_project Posix (scripted 0 0) plain_what false
        (demo_world (sail_toml_content "demo")) in
    (result, with_cwd ["w"; "demo"] w').
Proof.
  apply (build_project_same_from_any_directory Posix (scripted 0 0) plain_what
           false (demo_world (sail_toml_content "demo")) ["w"; "demo"]).
  - reflexivity.
  - intros t. reflexivity.
  - intros t. reflexivity.
Defined.

Lemma build_project_one_diagnostic_witness :
  output (snd (build_project Posix (scripted 0 2) plain_what false
                 (demo_world (sail_toml_content "demo"))))
  = ["Error: Build failed\n"].
Proof.
  pose (r := build_project Posix (scripted 0 2) plain_what false
               (demo_world (sail_toml_content "demo"))).
  assert (H : build_project Posix (scripted 0 2) plain_what false
                (demo_world (sail_toml_content "demo"))
              = ((fst (fst r), snd (fst r)), snd r))
    by (vm_compute; reflexivity).
  destruct (build_project_one_diagnostic _ _ _ _ _ _ _ _ H)
    as [[E _]|(_ & _ & msg & _ & E)]; [vm_compute in E; discriminate|].
  vm_compute. reflexivity.
Defined.

Lemma scripted_keeps (c b : Z) (loc : location) : keeps (scripted c b) loc.
Proof. intros cmd t n H. exact H. Qed.

Lemma build_project_preserves_entries_witness :
  tree (snd (build_project Posix (scripted 0 0) plain_what false edited_world))
    !! ["w"; "demo"; "CMakeLists.txt"]
  = Some (File "# edited by hand").
Proof.
  eapply (build_project_preserves_entries Posix (scripted 0 0) plain_what false
            edited_world).
  - apply surjective_pairing.
  - apply scripted_keeps.
  - reflexivity.
Defined.

Lemma build_project_leaves_build_tree_witness :
  tree (snd (build_project Posix (scripted 0 0) plain_what true
               (demo_world (sail_toml_content "demo"))))
    !! ["w"; "demo"; "target"; "release"; "build"]
  = Some Dir.
Proof.
  pose (r := build_project Posix (scripted 0 0) plain_what true
               (demo_world (sail_toml_content "demo"))).
  assert (H : build_project Posix (scripted 0 0) plain_what true
                (demo_world (sail_toml_content "demo"))
              = ((EXIT_SUCCESS, snd (fst r)), snd r))
    by (vm_compute; reflexivity).
  exact (proj1 (build_project_leaves_build_tree _ _ _ _ _ _ _ H
                  (scripted_keeps 0 0 _) (scripted_keeps 0 0 _))).
Defined.

(** ** The command handlers *)

Lemma concat_merge_head (x y : string) (rest : list string) :
  String.concat " " ((x +:+ " " +:+ y) :: rest) = String.concat " " (x :: y :: rest).
Proof.
  destruct rest as [|z rest]; [reflexivity|].
  cbn [String.concat]. now rewrite !sapp_assoc.
Qed.

Lemma run_command_concat (q : string -> string) (args : list string) :
  forall first,
    fold_left (fun cmd arg => cmd +:+ " " +:+ q arg) args first
    = String.concat " " (first :: map q args).
Proof.
  induction args as [|a args IH]; intros first; [reflexivity|].
  cbn [fold_left map]. rewrite IH. apply concat_merge_head.
Qed.

Section HandlerFacts.

Variable host : platform.
Variable toolchain : string -> gmap location node -> Z * gmap location node.
Variable what : path -> string.

(** X10. After a successful build with the artifact in place, the run
    handler issues one more command: the quoted artifact path followed by
    the quoted arguments in their order, separated by single spaces.  It
    announces the run with one line and returns the status of that command
    as it is. *)
Theorem handle_run_command_runs_artifact (release : bool)
    (args : list string) (w w1 : World) (p : path) :
  build_project host toolchain what release
    (print ("Compiling " +:+ target_subdir_of release +:+ "...\n") w)
  = ((EXIT_SUCCESS, p), w1) ->
  fs_exists w1 p = true ->
  let cmd := String.concat " " (map (quote_path host) (Path.to_string p :: args)) in
  let status := fst (toolchain cmd (tree w1)) in
  handle_run_command host toolchain what release args w
  = (status,
     mkWorld (snd (toolchain cmd (tree w1))) (cwd w1) (denied w1)
       (commands w1 ++ [(cmd, status)])
       (output w1 ++ ["Running `" +:+ Path.filename p +:+ "`\n"])).
Proof.
  intros H Hex cmd status. unfold handle_run_command. rewrite H.
  cbn [negb Z.eqb EXIT_SUCCESS]. rewrite Hex. cbn [negb].
  rewrite run_command_concat.
  change (String.concat " " (quote_path host (Path.to_string p)
                               :: map (quote_path host) args)) with cmd.
  unfold std_system, print. cbn [tree cwd denied commands output].
  unfold status. now destruct (toolchain cmd (tree w1)).
Qed.


End HandlerFacts.

Lemma handle_run_command_runs_artifact_witness :
  fst (handle_run_command Posix
         (producing ["w"; "demo"; "target"; "debug"; "demo"]) plain_what
         false ["a b"; "c"] (demo_world (sail_toml_content "demo")))
  = 0.
Proof.
  pose (r := build_project Posix
               (producing ["w"; "demo"; "target"; "debug"; "demo"]) plain_what
               false
               (print "Compiling debug...\n"
                  (demo_world (sail_toml_content "demo")))).
  rewrite (handle_run_command_runs_artifact Posix
             (producing ["w"; "demo"; "target"; "debug"; "demo"]) plain_what
             false ["a b"; "c"] (demo_world (sail_toml_content "demo"))
             (snd r) (snd (fst r)));
    [reflexivity | vm_compute; reflexivity | vm_compute; reflexivity].
Defined.


(** ** Scaffolding: [init] and [new] *)

Lemma getlines_from_line (a rest : string) :
  forall cur, has_char newline a = false ->
    getlines_from cur (a +:+ String newline rest)
    = (cur +:+ a) :: getlines_from EmptyString rest.
Proof.
  induction a as [|c a IH]; intros cur Ha; simpl.
  - rewrite ?Ascii.eqb_refl. now rewrite sapp_nil_r.
  - simpl in Ha. apply orb_false_iff in Ha as [Hc Ha]. rewrite Hc.
    rewrite (IH _ Ha), sapp_assoc. reflexivity.
Qed.

(** The lines of the manifest the two commands write. *)
Lemma getlines_sail_toml_content (name : string) :
  has_char newline name = false ->
  getlines (sail_toml_content name)
  = ["[project]"; name_line name;
     "version = " +:+ str dquote +:+ "0.1.0" +:+ str dquote;
     EmptyString; "[dependencies]"].
Proof.
  intros Hn. unfold getlines, sail_toml_content.
  change (str newline +:+ ?x) with (String newline x).
  rewrite getlines_from_line by reflexivity.
  change (name_line name +:+ str newline +:+ ?x)
    with (name_line name +:+ String newline x).
  rewrite getlines_from_line.
  - reflexivity.
  - unfold name_line. rewrite !has_char_app, Hn. reflexivity.
Qed.

Lemma parse_written_manifest (a b : string) :
  let name := a +:+ b in
  has_char newline name = false ->
  has_char dquote a = false ->
  (b = EmptyString \/ exists b', b = String dquote b') ->
  fits (name_line name) ->
  parse_project_name (sail_toml_content name) = a.
Proof.
  intros name Hnl Ha Hb Hfit. unfold parse_project_name.
  rewrite (getlines_sail_toml_content name Hnl).
  apply (scan_lines_hit ["[project]"]).
  - constructor; [|constructor]. apply scan_line_no_marker, index_str_none.
    reflexivity.
  - destruct Hb as [->|[b' ->]].
    + unfold name in *. rewrite sapp_nil_r in *.
      now apply (scan_line_value_after_marker EmptyString a EmptyString).
    + assert (E : name_line name
                  = EmptyString +:+ MARKER +:+ a +:+ str dquote
                    +:+ (b' +:+ str dquote)).
      { unfold name_line, name. simpl. now rewrite !sapp_assoc. }
      rewrite E in Hfit |- *.
      now apply (scan_line_value_after_marker EmptyString a (b' +:+ str dquote)).
Qed.

Lemma current_manifest_rooted (w : World) :
  resolve w (current_path w </> MANIFEST) = cwd w ++ [MANIFEST].
Proof. reflexivity. Qed.



(** X13. [init] never replaces anything: every entry of the tree is still
    there after it, a directory that already has a manifest is refused and
    left as it is, and so is a second [init] after a first one that
    succeeded. *)
Theorem handle_init_command_keeps (w w' : World) (code : Z) :
  handle_init_command w = (code, w') ->
  (forall loc n, tree w !! loc = Some n -> tree w' !! loc = Some n)
  /\ (fs_exists w (current_path w </> MANIFEST) = true ->
      code = EXIT_FAILURE /\ tree w' = tree w)
  /\ (code = EXIT_SUCCESS ->
      handle_init_command w'
      = (EXIT_FAILURE,
         print "Sail.toml already exists in current directory\n" w')).
Proof.
  unfold handle_init_command at 1.
  destruct (fs_exists w (current_path w </> MANIFEST)) eqn:Hex.
  - intros H. injection H as <- <-. repeat split; auto; discriminate.
  - destruct (can_open_for_write w (current_path w </> MANIFEST));
      cbn [negb]; intros H; injection H as <- <-.
    + split; [|split; [discriminate|]].
      * intros loc n Hloc. simpl. rewrite lookup_insert_ne; [exact Hloc|].
        intros <-. unfold fs_exists in Hex.
        apply bool_decide_eq_false_1 in Hex. apply Hex.
        unfold is_Some. eauto.
      * intros _. unfold handle_init_command.
        assert (X : fs_exists
                      (print "Created Sail.toml\n"
                         (write_file (current_path w </> MANIFEST)
                            (sail_toml_content (Path.filename (current_path w)))
                            w))
                      (current_path w </> MANIFEST) = true)
          by apply (fs_exists_write_file w (current_path w </> MANIFEST)).
        unfold current_path in *. simpl cwd. now rewrite X.
    + repeat split; auto; discriminate.
Qed.

Lemma handle_init_command_keeps_witness :
  handle_init_command (snd (handle_init_command bare_world))
  = (EXIT_FAILURE,
     print "Sail.toml already exists in current directory\n"
       (snd (handle_init_command bare_world))).
Proof.
  apply (proj2 (proj2 (handle_init_command_keeps bare_world
                         (snd (handle_init_command bare_world))
                         (fst (handle_init_command bare_world))
                         (surjective_pairing _)))).
  reflexivity.
Defined.

(** X14. Neither command escapes the name it writes.  For a name with a
    double quote in it and no line feed, the manifest they write is read
    back as the part of the name before the first double quote, and is
    rejected for a missing name when that part is empty; in no case is the
    name written read back. *)
Theorem written_name_cut_at_quote (w : World) (manifest_path : path)
    (a b : string) :
  let name := a +:+ str dquote +:+ b in
  read_file w manifest_path = Some (sail_toml_content name) ->
  has_char dquote a = false ->
  has_char newline name = false ->
  fits (name_line name) ->
  read_project_name w manifest_path
  = (if StdString.empty a then Failed MissingField else Name a)
  /\ read_project_name w manifest_path <> Name name.
Proof.
  intros name Hread Ha Hnl Hfit.
  assert (R : read_project_name w manifest_path
              = (if StdString.empty a then Failed MissingField else Name a)).
  { rewrite (read_project_name_parse _ _ _ Hread).
    assert (P : parse_project_name (sail_toml_content name) = a).
    { apply (parse_written_manifest a (str dquote +:+ b)); auto.
      right. now exists b. }
    now rewrite !P. }
  split; [exact R|]. rewrite R.
  destruct (StdString.empty a); [discriminate|].
  intros E. injection E as E. apply (f_equal (has_char dquote)) in E.
  unfold name in E. rewrite Ha, has_char_app in E. simpl in E.
  rewrite ?Ascii.eqb_refl, ?orb_true_r in E. discriminate.
Qed.

Lemma written_name_cut_at_quote_witness :
  read_project_name
    (demo_world (sail_toml_content ("my" +:+ str dquote +:+ "app")))
    demo_manifest_path
  = Name "my"
  /\ read_project_name
       (demo_world (sail_toml_content (EmptyString +:+ str dquote +:+ "app")))
       demo_manifest_path
     = Failed MissingField.
Proof.
  split.
  - refine (proj1 (written_name_cut_at_quote
                     (demo_world (sail_toml_content ("my" +:+ str dquote +:+ "app")))
                     demo_manifest_path "my" "app" _ _ _ _)).
    + reflexivity.
    + reflexivity.
    + reflexivity.
    + unfold fits. vm_compute. discriminate.
  - refine (proj1 (written_name_cut_at_quote
                     (demo_world (sail_toml_content
                                    (EmptyString +:+ str dquote +:+ "app")))
                     demo_manifest_path EmptyString "app" _ _ _ _)).
    + reflexivity.
    + reflexivity.
    + reflexivity.
    + unfold fits. vm_compute. discriminate.
Defined.

Lemma append_rooted (p : path) (s : string) :
  Path.has_root p = true -> Path.has_root (p </> s) = true.
Proof.
  intros Hp. unfold Path.append.
  now destruct (Path.has_root (Path.of_string s)) eqn:E.
Qed.

Lemma snoc_neq (l : location) (x : string) (more : location) :
  l ++ x :: more <> l.
Proof.
  intros E. apply (f_equal (@length string)) in E.
  rewrite length_app in E. simpl in E. lia.
Qed.

(** What a successful [create_directory] has done. *)
Lemma create_directory_inv (p : path) (w w1 : World) :
  create_directory p w = Some w1 ->
  cwd w1 = cwd w /\ denied w1 = denied w /\ output w1 = output w
  /\ commands w1 = commands w
  /\ tree w1 !! resolve w p = Some Dir
  /\ (tree w1 = tree w
      \/ (tree w !! resolve w p = None
          /\ tree w !! removelast (resolve w p) = Some Dir
          /\ tree w1 = <[resolve w p := Dir]> (tree w))).
Proof.
  unfold create_directory.
  destruct (tree w !! resolve w p) as [[c|]|] eqn:E; [discriminate| |].
  - intros H. injection H as <-. repeat split; auto.
  - destruct (bool_decide (resolve w p ∈ denied w)); [discriminate|].
    destruct (bool_decide (tree w !! removelast (resolve w p) = Some Dir)) eqn:D;
      [|discriminate].
    apply bool_decide_eq_true_1 in D.
    intros H. injection H as <-. simpl. repeat split.
    + apply lookup_insert_eq.
    + right. auto.
Qed.

Section ScaffoldFacts.

Variable what : path -> string.

(** The worlds a call of [new] goes through once the project directory is
    made. *)
Lemma handle_new_command_steps (name : string) (w w' : World) (code : Z) :
  handle_new_command what name w = (code, w') ->
  let project_dir := current_path w </> name in
  let pd := Path.names project_dir in
  (fs_exists w project_dir = true /\ code = EXIT_FAILURE /\ tree w' = tree w)
  \/ (tree w !! pd = None
      /\ ((code = EXIT_FAILURE /\ tree w' = tree w)
          \/ (pd <> [] /\ tree w !! removelast pd = Some Dir
              /\ exists t1 : gmap location node,
                   (t1 = <[pd := Dir]> (tree w)
                    \/ t1 = <[pd ++ ["src"] := Dir]> (<[pd := Dir]> (tree w)))
                   /\ ((code = EXIT_FAILURE /\ tree w' = <[pd := Dir]> (tree w))
                       \/ (code = EXIT_FAILURE /\ tree w' = t1
                           /\ t1 !! (pd ++ ["src"]) = Some Dir)
                       \/ (code = EXIT_FAILURE
                           /\ tree w' = <[pd ++ [MANIFEST] := File (sail_toml_content name)]> t1
                           /\ t1 !! (pd ++ ["src"]) = Some Dir)
                       \/ (code = EXIT_SUCCESS
                           /\ t1 !! (pd ++ ["src"]) = Some Dir
                           /\ tree w'
                              = <[pd ++ ["src"; "main.cpp"] := File main_cpp_content]>
                                  (<[pd ++ [MANIFEST] := File (sail_toml_content name)]> t1)
                           /\ output w'
                              = output w ++ ["Created project '" +:+ name +:+ "'\n"]))))).
Proof.
  intros H project_dir pd. unfold handle_new_command in H.
  fold project_dir in H.
  assert (Hpd : Path.has_root project_dir = true)
    by (apply append_rooted; reflexivity).
  assert (Rpd : forall v, resolve v project_dir = pd)
    by (intros v; now apply resolve_rooted).
  assert (Rsrc : forall v, resolve v (project_dir </> "src") = pd ++ ["src"]).
  { intros v. rewrite resolve_rooted by (simpl; exact Hpd). reflexivity. }
  assert (Rtoml : forall v, resolve v (project_dir </> MANIFEST) = pd ++ [MANIFEST]).
  { intros v. rewrite resolve_rooted by (simpl; exact Hpd). reflexivity. }
  assert (Rmain : forall v, resolve v (project_dir </> "src" </> "main.cpp")
                            = pd ++ ["src"; "main.cpp"]).
  { intros v. rewrite resolve_rooted by (simpl; exact Hpd).
    simpl. now rewrite <- List.app_assoc. }
  destruct (fs_exists w project_dir) eqn:Hex.
  { injection H as <- <-. left. auto. }
  right. unfold fs_exists in Hex. apply bool_decide_eq_false_1 in Hex.
  rewrite Rpd in Hex.
  assert (Hnone : tree w !! pd = None).
  { destruct (tree w !! pd) eqn:E; [|reflexivity]. exfalso. apply Hex. eauto. }
  split; [exact Hnone|].
  destruct (create_directory project_dir w) as [w1|] eqn:E1.
  2:{ injection H as <- <-. left. auto. }
  apply create_directory_inv in E1 as (C1 & D1 & O1 & _ & P1 & T1).
  rewrite Rpd in T1, P1.
  destruct T1 as [T1|(_ & Hparent & T1)].
  { exfalso. congruence. }
  right.
  assert (Hne : pd <> []).
  { intros E. rewrite E in Hparent, Hnone. simpl in Hparent. congruence. }
  split; [exact Hne|]. split; [exact Hparent|].
  destruct (create_directory (project_dir </> "src") w1) as [w2|] eqn:E2.
  2:{ injection H as <- <-. exists (<[pd := Dir]> (tree w)).
      split; [now left|]. left. simpl. auto. }
  apply create_directory_inv in E2 as (C2 & D2 & O2 & _ & S2 & T2).
  rewrite Rsrc in S2, T2.
  exists (tree w2). split.
  { destruct T2 as [T2|(_ & _ & T2)]; [left|right]; congruence. }
  right.
  destruct (can_open_for_write w2 (project_dir </> MANIFEST)); cbn [negb] in H.
  2:{ injection H as <- <-. left. auto. }
  right.
  destruct (can_open_for_write _ (project_dir </> "src" </> "main.cpp"));
    cbn [negb] in H; injection H as <- <-.
  - right. split; [reflexivity|]. split; [exact S2|]. split.
    + simpl. now rewrite Rmain, Rtoml.
    + simpl. now rewrite O2, O1.
  - left. split; [reflexivity|]. split; [|exact S2]. simpl. now rewrite Rtoml.
Qed.

Lemma handle_new_command_cwd (name : string) (w w' : World) (code : Z) :
  handle_new_command what name w = (code, w') -> cwd w' = cwd w.
Proof.
  unfold handle_new_command.
  destruct (fs_exists w _); [intros H; now injection H as <- <-|].
  destruct (create_directory _ w) as [w1|] eqn:E1;
    [|intros H; now injection H as <- <-].
  apply create_directory_inv in E1 as (C1 & _).
  destruct (create_directory _ w1) as [w2|] eqn:E2;
    [|intros H; now injection H as <- <-].
  apply create_directory_inv in E2 as (C2 & _).
  destruct (can_open_for_write w2 _); cbn [negb];
    [|intros H; injection H as <- <-; simpl; congruence].
  destruct (can_open_for_write _ _); cbn [negb];
    intros H; injection H as <- <-; simpl; congruence.
Qed.


Lemma absent_below (t : gmap location node) (pd : location) :
  well_formed t -> t !! pd = None ->
  forall more, t !! (pd ++ more) = None.
Proof.
  intros Hwf Hpd more. induction more as [|x m IH] using rev_ind.
  - now rewrite List.app_nil_r.
  - destruct (t !! (pd ++ m ++ [x])) as [n|] eqn:E; [|reflexivity].
    exfalso. specialize (Hwf _ _ E).
    rewrite List.app_assoc, removelast_last, IH in Hwf.
    assert (Hne : (pd ++ m) ++ [x] <> []) by now destruct (pd ++ m).
    specialize (Hwf Hne). discriminate Hwf.
Qed.


(** X16. A call of [new] that fails half way does not undo what it made:
    unless the tree is as it was, the project directory now exists, and the
    same call again is refused because of it. *)
Theorem handle_new_command_no_rollback (name : string) (w w' : World) :
  handle_new_command what name w = (EXIT_FAILURE, w') ->
  tree w' = tree w
  \/ (fs_exists w (current_path w </> name) = false
      /\ fs_exists w' (current_path w </> name) = true
      /\ handle_new_command what name w'
         = (EXIT_FAILURE,
            print ("Directory '" +:+ name +:+ "' already exists\n") w')).
Proof.
  intros H. pose proof (handle_new_command_cwd _ _ _ _ H) as C.
  pose proof (handle_new_command_steps _ _ _ _ H) as S. cbv zeta in S.
  set (project_dir := current_path w </> name) in *.
  set (pd := Path.names project_dir) in *.
  assert (Hpd : Path.has_root project_dir = true)
    by (apply append_rooted; reflexivity).
  assert (Hthere : is_Some (tree w' !! pd) ->
            fs_exists w' project_dir = true
            /\ handle_new_command what name w'
               = (EXIT_FAILURE,
                  print ("Directory '" +:+ name +:+ "' already exists\n") w')).
  { intros Hs.
    assert (X : fs_exists w' project_dir = true).
    { unfold fs_exists. rewrite resolve_rooted by exact Hpd.
      now apply bool_decide_eq_true_2. }
    split; [exact X|]. unfold handle_new_command.
    replace (current_path w') with (current_path w)
      by (unfold current_path; now rewrite C).
    fold project_dir. now rewrite X. }
  destruct S as [(_ & _ & T)|(Hnone & [(_ & T)|(_ & _ & t1 & Ht1 & S)])];
    [now left | now left |].
  right.
  assert (Habs : fs_exists w project_dir = false).
  { unfold fs_exists. rewrite resolve_rooted by exact Hpd.
    apply bool_decide_eq_false_2. fold pd. rewrite Hnone. now intros [? ?]. }
  split; [exact Habs|]. apply Hthere.
  assert (L1 : is_Some (t1 !! pd)).
  { destruct Ht1 as [-> | ->].
    - rewrite lookup_insert_eq. eauto.
    - rewrite lookup_insert_ne by apply snoc_neq.
      rewrite lookup_insert_eq. eauto. }
  destruct S as [(_ & T)|[(_ & T & _)|[(_ & T & _)|(E & _)]]];
    [| | |discriminate E]; rewrite T.
  - rewrite lookup_insert_eq. eauto.
  - exact L1.
  - now rewrite lookup_insert_ne by apply snoc_neq.
Qed.

(** X17. On a tree in which every entry sits in an existing directory,
    [new] only adds entries: whatever was there before the call is there
    unchanged after it, whether the call succeeds or fails. *)
Theorem handle_new_command_only_adds (name : string) (w w' : World)
    (code : Z) (loc : location) (n : node) :
  handle_new_command what name w = (code, w') ->
  well_formed (tree w) ->
  tree w !! loc = Some n ->
  tree w' !! loc = Some n.
Proof.
  intros H Hwf Hloc.
  pose proof (handle_new_command_steps _ _ _ _ H) as S. cbv zeta in S.
  set (pd := Path.names (current_path w </> name)) in *.
  destruct S as [(_ & _ & T)|(Hnone & [(_ & T)|(_ & _ & t1 & Ht1 & S)])];
    [now rewrite T | now rewrite T |].
  assert (Hfresh : forall more, loc <> pd ++ more).
  { intros more ->. rewrite (absent_below _ _ Hwf Hnone) in Hloc. discriminate. }
  assert (Hpd : loc <> pd).
  { specialize (Hfresh []). now rewrite List.app_nil_r in Hfresh. }
  assert (L1 : t1 !! loc = Some n).
  { destruct Ht1 as [-> | ->].
    - now rewrite lookup_insert_ne by auto.
    - rewrite lookup_insert_ne by (apply not_eq_sym, Hfresh).
      now rewrite lookup_insert_ne by auto. }
  destruct S as [(_ & T)|[(_ & T & _)|[(_ & T & _)|(_ & _ & T & _)]]];
    rewrite T.
  - now rewrite lookup_insert_ne by auto.
  - exact L1.
  - now rewrite lookup_insert_ne by (apply not_eq_sym, Hfresh).
  - rewrite !lookup_insert_ne by (apply not_eq_sym, Hfresh). exact L1.
Qed.

End ScaffoldFacts.


Lemma handle_new_command_no_rollback_witness :
  handle_new_command plain_what "app"
    (snd (handle_new_command plain_what "app" locked_world))
  = (EXIT_FAILURE,
     print "Directory 'app' already exists\n"
       (snd (handle_new_command plain_what "app" locked_world))).
Proof.
  destruct (handle_new_command_no_rollback plain_what "app" locked_world
              (snd (handle_new_command plain_what "app" locked_world)))
    as [T|(_ & _ & R)].
  - vm_compute. reflexivity.
  - exfalso. apply (f_equal (fun t => t !! ["w"; "fresh"; "app"])) in T.
    vm_compute in T. discriminate T.
  - exact R.
Defined.

Lemma bare_world_well_formed : well_formed (tree bare_world).
Proof.
  intros loc n H Hne. unfold bare_world in H. cbn [tree list_to_map foldr] in H.
  repeat (apply lookup_insert_Some in H as [[<- _]|[_ H]];
          [first [congruence | reflexivity]|]).
  rewrite lookup_empty in H. discriminate.
Qed.

Lemma handle_new_command_only_adds_witness :
  tree (snd (handle_new_command plain_what "app" bare_world)) !! ["w"; "fresh"]
  = Some Dir.
Proof.
  apply (handle_new_command_only_adds plain_what "app" bare_world _
           (fst (handle_new_command plain_what "app" bare_world))).
  - apply surjective_pairing.
  - apply bare_world_well_formed.
  - reflexivity.
Defined.

(** X18. Lines that do not hold the marker, such as section headers,
    comments, blank lines and other keys, never matter: the name read from
    a manifest is the name read from its marker lines alone, in their
    order. *)
Theorem lines_without_marker_ignored (lines : list string) (init : string)
    (holds_marker : string -> bool) :
  (forall l, holds_marker l = false -> ~ contains MARKER l) ->
  scan_lines lines init = scan_lines (List.filter holds_marker lines) init.
Proof.
  intros Hdec. induction lines as [|l lines IH]; [reflexivity|].
  cbn [List.filter scan_lines]. destruct (holds_marker l) eqn:E.
  - cbn [scan_lines]. now rewrite IH.
  - now rewrite (scan_line_no_marker l (Hdec l E)).
Qed.

Lemma lines_without_marker_ignored_witness :
  scan_lines (getlines (sail_toml_content "demo")) EmptyString
  = scan_lines [name_line "demo"] EmptyString.
Proof.
  apply (lines_without_marker_ignored (getlines (sail_toml_content "demo"))
           EmptyString
           (fun l => match index_str MARKER l with Some _ => true | None => false end)).
  intros l H. apply index_str_none. now destruct (index_str MARKER l).
Defined.

Section RunStatus.

Variable host : platform.
Variable toolchain : string -> gmap location node -> Z * gmap location node.
Variable what : path -> string.

(** X19. The run handler hands on the status of the program it ran and of
    nothing else: unless the build succeeded, the artifact was there and
    was run as the one further command, the handler returns 1 and runs
    nothing, whatever status the toolchain gave. *)
Theorem handle_run_command_status (release : bool) (args : list string)
    (w w' : World) (code : Z) :
  handle_run_command host toolchain what release args w = (code, w') ->
  let built :=
    build_project host toolchain what release
      (print ("Compiling " +:+ target_subdir_of release +:+ "...\n") w) in
  (code = EXIT_FAILURE /\ commands w' = commands (snd built)
   /\ tree w' = tree (snd built))
  \/ (fst (fst built) = EXIT_SUCCESS
      /\ fs_exists (snd built) (snd (fst built)) = true
      /\ exists cmd, commands w' = commands (snd built) ++ [(cmd, code)]).
Proof.
  intros H built. unfold handle_run_command in H. fold built in H.
  destruct built as [[c p] w1] eqn:E. unfold built in E.
  pose proof (build_project_frame _ _ _ _ _ _ _ _ E) as (_ & _ & Hout).
  cbn [fst snd].
  destruct Hout as [(-> & _)|(-> & _)].
  - cbn [negb Z.eqb EXIT_SUCCESS] in H.
    destruct (fs_exists w1 p) eqn:Hex; cbn [negb] in H.
    + right. repeat split. unfold std_system in H.
      destruct (toolchain _ _) as [s t] in H. injection H as <- <-.
      eexists. reflexivity.
    + injection H as <- <-. left. auto.
  - cbn [negb Z.eqb EXIT_SUCCESS EXIT_FAILURE] in H. injection H as <- <-.
    left. auto.
Qed.

End RunStatus.

Lemma handle_run_command_status_witness :
  fst (handle_run_command Posix (scripted 7 0) plain_what false []
         (demo_world (sail_toml_content "demo")))
  = EXIT_FAILURE.
Proof.
  destruct (handle_run_command_status Posix (scripted 7 0) plain_what false []
              (demo_world (sail_toml_content "demo")) _ _
              (surjective_pairing _)) as [(E & _)|(E & _)].
  - exact E.
  - vm_compute in E. discriminate E.
Defined.
